(** * image_to_tileset: tile extraction, transparency-aware deduplication
      and grid packing

    A shallow embedding of [image_to_tileset.py] (Python 2, PIL) and the
    properties its specification states about it.

    - Python integers are unbounded: they are [Z].  On [int] operands
      Python 2's [/] is floor division and [%] takes the sign of the
      divisor, which is what [Z.div] and [Z.modulo] compute; a zero divisor
      raises [ZeroDivisionError].
    - Exceptions are values of an error monad [result].
    - A PIL image is its size together with its pixel contents; the
      operations the program calls on it ([size], [getpixel], [crop],
      [Image.new], [paste]) are modelled in [Module PIL].
    - The three functions of the program keep their names:
      [tile_is_same], [create_tile_list], [save_to_tileset].  What they
      print, the file [save] writes and the argument parsing of [main] are
      left out. *)

From stdpp Require Import base tactics option list numbers.

Open Scope Z_scope.

(** ** Exceptions *)

Inductive exn : Set :=
| IndexError
| ZeroDivisionError
| ValueError.

Inductive result (A : Type) : Type :=
| Ok (a : A)
| Raise (e : exn).

Arguments Ok {A} a.
Arguments Raise {A} e.

#[export] Instance result_ret : MRet result := fun _ a => Ok a.
#[export] Instance result_bind : MBind result := fun _ _ f m =>
  match m with
  | Ok a => f a
  | Raise e => Raise e
  end.

(** ** The Python built-ins the program uses *)

Module Py.

(** [a / b] on Python 2 integers. *)
Definition floordiv (a b : Z) : result Z :=
  if decide (b = 0) then Raise ZeroDivisionError else Ok (a / b).

(** [xrange(lo, hi)]: [lo, lo+1, ..., hi-1], empty when [hi <= lo]. *)
Definition xrange (lo hi : Z) : list Z := seqZ lo (hi - lo).

(** [len(l)]. *)
Definition len {A} (l : list A) : Z := Z.of_nat (length l).

(** [enumerate(l)]: the elements paired with their indices from 0. *)
Definition enumerate {A} (l : list A) : list (Z * A) :=
  zip (xrange 0 (len l)) l.

End Py.

(** ** The part of PIL the program uses *)

Module PIL.

(** An RGBA pixel, the 4-tuple [getpixel] returns. *)
Definition Pixel : Type := Z * Z * Z * Z.

(** [pixel[3]], the alpha band. *)
Definition band3 (p : Pixel) : Z := snd p.

(** The colour [Image.new] fills with by default: zero in every band. *)
Definition transparent : Pixel := (0, 0, 0, 0).

(** An image: its width and height (never negative) and its contents.
    Only the contents at coordinates inside the image are observable;
    [getpixel] is the only way the program reads them. *)
Record Image : Type := mkImage {
  im_cols : nat;
  im_rows : nat;
  im_data : Z → Z → Pixel
}.

Definition width (im : Image) : Z := Z.of_nat (im_cols im).
Definition height (im : Image) : Z := Z.of_nat (im_rows im).

(** [im.size]. *)
Definition size (im : Image) : Z * Z := (width im, height im).

Definition inside (im : Image) (x y : Z) : Prop :=
  0 ≤ x < width im ∧ 0 ≤ y < height im.

#[export] Instance inside_dec im x y : Decision (inside im x y).
Proof. unfold inside. apply _. Defined.

(** [im.getpixel((x, y))]: the pixel at a coordinate inside the image,
    [IndexError] outside.  (The program only passes coordinates it takes
    from [xrange(0, _)].) *)
Definition getpixel (im : Image) (xy : Z * Z) : result Pixel :=
  let '(x, y) := xy in
  if decide (inside im x y) then Ok (im_data im x y) else Raise IndexError.

(** [im.crop((left, upper, right, lower))], the box written
    [(x0, y0, x1, y1)]: a new image of size [(x1 - x0, y1 - y0)] whose
    pixel [(x, y)] is the source's pixel [(x0 + x, y0 + y)]; the part of
    the box that lies outside the source is filled with zeros. *)
Definition crop (im : Image) (box : Z * Z * Z * Z) : Image :=
  let '(x0, y0, x1, y1) := box in
  {| im_cols := Z.to_nat (x1 - x0);
     im_rows := Z.to_nat (y1 - y0);
     im_data := fun x y =>
       if decide (inside im (x0 + x) (y0 + y))
       then im_data im (x0 + x) (y0 + y)
       else transparent |}.

(** [Image.new('RGBA', (w, h))]: an image of that size, every pixel
    [(0, 0, 0, 0)]; a negative width or height raises [ValueError]. *)
Definition new (wh : Z * Z) : result Image :=
  let '(w, h) := wh in
  if decide (0 ≤ w ∧ 0 ≤ h)
  then Ok {| im_cols := Z.to_nat w; im_rows := Z.to_nat h;
             im_data := fun _ _ => transparent |}
  else Raise ValueError.

(** [dest.paste(src, (x, y))] with images of the same mode and no mask:
    the rectangle of [src]'s size whose upper left corner is [(x, y)] is
    overwritten with [src]; [dest] keeps its size (what falls outside it is
    clipped).  [paste] updates [dest] in place: the updated image is
    returned. *)
Definition paste (dest src : Image) (xy : Z * Z) : Image :=
  let '(x0, y0) := xy in
  {| im_cols := im_cols dest;
     im_rows := im_rows dest;
     im_data := fun x y =>
       if decide (inside src (x - x0) (y - y0))
       then im_data src (x - x0) (y - y0)
       else im_data dest x y |}.

End PIL.

Import Py PIL.

(** ** [tile_is_same] (lines 13-36) *)

(** The body of the inner loop [for x in xrange(tile.width)] at row [y].
    [Ok false]: the function returned [False]; [Ok true]: the loop ran to
    its end. *)
Fixpoint tile_is_same_row (tile new_tile : Image) (y : Z) (xs : list Z)
  : result bool :=
  match xs with
  | [] => Ok true
  | x :: xs' =>
      tile_pixel ← getpixel tile (x, y);
      new_tile_pixel ← getpixel new_tile (x, y);
      if bool_decide (band3 tile_pixel = 0)
         && bool_decide (band3 new_tile_pixel = 0)
      then tile_is_same_row tile new_tile y xs'
      else if bool_decide (tile_pixel ≠ new_tile_pixel)
      then Ok false
      else tile_is_same_row tile new_tile y xs'
  end.

(** The outer loop [for y in xrange(tile.height)]. *)
Fixpoint tile_is_same_rows (tile new_tile : Image) (ys : list Z)
  : result bool :=
  match ys with
  | [] => Ok true
  | y :: ys' =>
      through ← tile_is_same_row tile new_tile y (xrange 0 (width tile));
      if (through : bool)
      then tile_is_same_rows tile new_tile ys'
      else Ok false
  end.

Definition tile_is_same (tile new_tile : Image) : result bool :=
  if bool_decide (size tile ≠ size new_tile)
  then Ok false
  else tile_is_same_rows tile new_tile (xrange 0 (height tile)).

(** ** [create_tile_list] (lines 39-73) *)

(** Lines 56-60: the tile of grid cell [(x, y)]. *)
Definition new_tile_at (im : Image) (tile_w tile_h x y : Z) : Image :=
  let left_ := x * tile_w in
  let upper := y * tile_h in
  let right_ := left_ + tile_w in
  let lower := upper + tile_h in
  crop im (left_, upper, right_, lower).

(** Lines 63-67: the value of [add_tile] after the scan
    [for tile in tile_list], which stops at the first tile that is the
    same as [new_tile]. *)
Fixpoint add_tile_scan (tile_list : list Image) (new_tile : Image)
  : result bool :=
  match tile_list with
  | [] => Ok true
  | tile :: rest =>
      same ← tile_is_same tile new_tile;
      if (same : bool) then Ok false else add_tile_scan rest new_tile
  end.

(** The inner loop [for x in xrange(0, im_w / tile_w)] at grid row [y],
    threading [tile_list]. *)
Fixpoint create_tile_list_cols (im : Image) (tile_w tile_h y : Z)
    (xs : list Z) (tile_list : list Image) : result (list Image) :=
  match xs with
  | [] => Ok tile_list
  | x :: xs' =>
      let new_tile := new_tile_at im tile_w tile_h x y in
      add_tile ← add_tile_scan tile_list new_tile;
      create_tile_list_cols im tile_w tile_h y xs'
        (if (add_tile : bool) then tile_list ++ [new_tile] else tile_list)
  end.

(** The outer loop [for y in xrange(0, im_h / tile_h)].  The bound of the
    inner loop, [im_w / tile_w], is evaluated anew in every iteration. *)
Fixpoint create_tile_list_rows (im : Image) (tile_w tile_h : Z)
    (ys : list Z) (tile_list : list Image) : result (list Image) :=
  match ys with
  | [] => Ok tile_list
  | y :: ys' =>
      cols ← floordiv (width im) tile_w;
      tile_list' ← create_tile_list_cols im tile_w tile_h y (xrange 0 cols)
                     tile_list;
      create_tile_list_rows im tile_w tile_h ys' tile_list'
  end.

Definition create_tile_list (im : Image) (tile_w tile_h : Z)
  : result (list Image) :=
  let '(im_w, im_h) := size im in
  rows ← floordiv im_h tile_h;
  create_tile_list_rows im tile_w tile_h (xrange 0 rows) [].

(** ** [save_to_tileset] (lines 76-100) *)

Definition TILES_IN_ROW : Z := 16.

(** Lines 87-91: the size handed to [Image.new]. *)
Definition tileset_size (tile_list : list Image) (tile_w tile_h : Z)
  : Z * Z :=
  let tileset_w :=
    if bool_decide (len tile_list < TILES_IN_ROW)
    then len tile_list * tile_w
    else TILES_IN_ROW * tile_w in
  let tileset_h := (len tile_list / TILES_IN_ROW + 1) * tile_h in
  (tileset_w, tileset_h).

(** Lines 95-96: where tile number [i] is pasted. *)
Definition tile_offset (tile_w tile_h i : Z) : Z * Z :=
  let x := (i `mod` TILES_IN_ROW) * tile_w in
  let y := (i / TILES_IN_ROW) * tile_h in
  (x, y).

(** Lines 94-97: the loop [for i, tile in enumerate(tile_list)], threading
    the tileset that [paste] updates. *)
Fixpoint paste_tiles (items : list (Z * Image)) (tile_w tile_h : Z)
    (tileset : Image) : Image :=
  match items with
  | [] => tileset
  | (i, tile) :: rest =>
      paste_tiles rest tile_w tile_h
        (paste tileset tile (tile_offset tile_w tile_h i))
  end.

(** The result is the image that [tileset.save(output_path)] writes. *)
Definition save_to_tileset (tile_list : list Image) (tile_w tile_h : Z)
  : result Image :=
  tileset ← PIL.new (tileset_size tile_list tile_w tile_h);
  Ok (paste_tiles (enumerate tile_list) tile_w tile_h tileset).

(** ** [main] (lines 103-123) *)

(** [im] is the image [Image.open(args.image_path)] returns; [x] and [y]
    are the values of the flags [-x] and [-y] when they are given, and both
    default to 8.  The result is the tileset that is saved. *)
Definition main (im : Image) (x y : option Z) : result Image :=
  let tile_width := default 8 x in
  let tile_height := default 8 y in
  tiles ← create_tile_list im tile_width tile_height;
  save_to_tileset tiles tile_width tile_height.

(** ** The vocabulary of the specification *)

(** Two pixels match when both are fully transparent or they are the same
    4-tuple. *)
Definition pixel_match (p q : Pixel) : Prop :=
  (band3 p = 0 ∧ band3 q = 0) ∨ p = q.

(** Two tiles match when they have the same size and their pixels match at
    every position. *)
Definition tiles_match (a b : Image) : Prop :=
  size a = size b ∧
  ∀ x y, inside a x y → pixel_match (im_data a x y) (im_data b x y).

(** [tile_is_same] read as a test: true when it returns [True]. *)
Definition is_same (a b : Image) : bool :=
  match tile_is_same a b with
  | Ok true => true
  | _ => false
  end.

(** The subsequence of [scan] that keeps each tile matching no tile kept
    before it. *)
Definition keep_unmatched (kept : list Image) (t : Image) : list Image :=
  if existsb (fun k => is_same k t) kept then kept else kept ++ [t].

Definition first_seen (scan : list Image) : list Image :=
  foldl keep_unmatched [] scan.

(** No kept tile is the same as a tile kept before it. *)
Definition distinct_tiles (l : list Image) : Prop :=
  ∀ i j a b, (i < j)%nat → l !! i = Some a → l !! j = Some b →
             is_same a b = false.

(** Two images look the same: same size, same pixel at every coordinate. *)
Definition same_image (a b : Image) : Prop :=
  size a = size b ∧ ∀ x y, getpixel a (x, y) = getpixel b (x, y).

(** The box of grid cell (row, col). *)
Definition cell_box (tile_w tile_h row col : Z) : Z * Z * Z * Z :=
  (col * tile_w, row * tile_h, col * tile_w + tile_w, row * tile_h + tile_h).

(** The boxes of the grid cells of a [w] x [h] image, row by row, each row
    from left to right. *)
Definition grid_boxes (w h tile_w tile_h : Z) : list (Z * Z * Z * Z) :=
  flat_map
    (fun row => map (cell_box tile_w tile_h row) (xrange 0 (w / tile_w)))
    (xrange 0 (h / tile_h)).

(** The row-major sequence of cropped tiles. *)
Definition grid_tiles (im : Image) (tile_w tile_h : Z) : list Image :=
  map (crop im) (grid_boxes (width im) (height im) tile_w tile_h).

(** ceil(a / b) for a positive [b]. *)
Definition ceil_div (a b : Z) : Z := - ((- a) / b).

(** The image made of a [k] x [k] grid of copies of [pattern]. *)
Definition tiled (pattern : Image) (k : nat) : Image :=
  {| im_cols := k * im_cols pattern;
     im_rows := k * im_rows pattern;
     im_data := fun x y =>
       im_data pattern (x `mod` width pattern) (y `mod` height pattern) |}.

(** Output pixel [(x, y)] lies in the grid cell of tile number [i]: the
    [tile_w] x [tile_h] rectangle whose upper left corner is
    [((i mod 16) * tile_w, (i / 16) * tile_h)]. *)
Definition in_cell (tile_w tile_h i x y : Z) : Prop :=
  (i `mod` 16) * tile_w ≤ x < (i `mod` 16) * tile_w + tile_w ∧
  (i / 16) * tile_h ≤ y < (i / 16) * tile_h + tile_h.

(** The rectangle in which tile number [i] is pasted. *)
Definition tileset_cell (tile_w tile_h i : Z) : Z * Z * Z * Z :=
  ((i `mod` 16) * tile_w, (i / 16) * tile_h,
   (i `mod` 16) * tile_w + tile_w, (i / 16) * tile_h + tile_h).

(** The pasted copy of [tile], number [i] of the list, covers output pixel
    [(x, y)]: whatever the size of [tile]. *)
Definition covers (tile_w tile_h i : Z) (tile : Image) (x y : Z) : Prop :=
  inside tile (x - (i `mod` 16) * tile_w) (y - (i / 16) * tile_h).

(** A tile without content: every pixel [(0, 0, 0, 0)]. *)
Definition blank_tile (tile_w tile_h : Z) : Image :=
  {| im_cols := Z.to_nat tile_w; im_rows := Z.to_nat tile_h;
     im_data := fun _ _ => transparent |}.

(** ** The pure reading of [tile_is_same] *)

Definition pixel_same (p q : Pixel) : bool :=
  (bool_decide (band3 p = 0) && bool_decide (band3 q = 0))
  || bool_decide (p = q).

Definition tile_eqb (a b : Image) : bool :=
  bool_decide (size a = size b)
  && forallb
       (fun y => forallb
          (fun x => pixel_same (im_data a x y) (im_data b x y))
          (xrange 0 (width a)))
       (xrange 0 (height a)).

(** ** Sample images *)

Module Samples.

(** An image of one colour. *)
Definition solid (w h : nat) (p : Pixel) : Image :=
  {| im_cols := w; im_rows := h; im_data := fun _ _ => p |}.

Definition red : Pixel := (255, 0, 0, 255).
Definition blue : Pixel := (0, 0, 255, 255).

(** A 16 x 8 image: the left half red, the right half blue. *)
Definition red_blue : Image :=
  {| im_cols := 16; im_rows := 8;
     im_data := fun x _ => if bool_decide (x < 8) then red else blue |}.

(** A 20 x 20 opaque image in which every pixel has its own colour. *)
Definition gradient : Image :=
  {| im_cols := 20; im_rows := 20; im_data := fun x y => (x, y, 0, 255) |}.

(** A 2 x 2 pattern with one fully transparent pixel. *)
Definition pattern : Image :=
  {| im_cols := 2; im_rows := 2;
     im_data := fun x y =>
       if bool_decide (x = 0 ∧ y = 0) then (10, 20, 30, 0)
       else (x, y, 7, 255) |}.

(** The same pattern with other colour values behind the transparent pixel. *)
Definition pattern' : Image :=
  {| im_cols := 2; im_rows := 2;
     im_data := fun x y =>
       if bool_decide (x = 0 ∧ y = 0) then (200, 200, 200, 0)
       else (x, y, 7, 255) |}.

(** And with yet other values there. *)
Definition pattern'' : Image :=
  {| im_cols := 2; im_rows := 2;
     im_data := fun x y =>
       if bool_decide (x = 0 ∧ y = 0) then (1, 2, 3, 0)
       else (x, y, 7, 255) |}.

(** The pattern with one opaque pixel changed. *)
Definition pattern_opaque : Image :=
  {| im_cols := 2; im_rows := 2;
     im_data := fun x y =>
       if bool_decide (x = 0 ∧ y = 0) then (10, 20, 30, 0)
       else (x, y, 8, 255) |}.

(** A 128 x 8 strip of 16 opaque 8 x 8 squares, each of its own colour. *)
Definition strip16 : Image :=
  {| im_cols := 128; im_rows := 8;
     im_data := fun x _ => (x / 8, 0, 0, 255) |}.

(** 17 opaque 8 x 8 tiles, each of its own colour. *)
Definition tiles17 : list Image :=
  map (fun i => solid 8 8 (i, 0, 0, 255)) (xrange 0 17).

End Samples.

(** * Properties *)

Lemma elem_of_xrange lo hi k : k ∈ xrange lo hi ↔ lo ≤ k < hi.
Proof. unfold xrange. rewrite elem_of_seqZ. lia. Qed.

Lemma pixel_same_match p q : pixel_same p q = true ↔ pixel_match p q.
Proof.
  unfold pixel_same, pixel_match.
  rewrite orb_true_iff, andb_true_iff, !bool_decide_eq_true. tauto.
Qed.

Lemma getpixel_inside im x y :
  inside im x y → getpixel im (x, y) = Ok (im_data im x y).
Proof. intros H. unfold getpixel. by rewrite decide_True. Qed.

Lemma getpixel_outside im x y :
  ¬ inside im x y → getpixel im (x, y) = Raise IndexError.
Proof. intros H. unfold getpixel. by rewrite decide_False. Qed.

Lemma size_eq_iff a b :
  size a = size b ↔ width a = width b ∧ height a = height b.
Proof. unfold size. split; [by inversion 1|by intros [-> ->]]. Qed.

(** The inner loop never leaves the two images, and computes the
    conjunction of the pixel tests of its row. *)
Lemma tile_is_same_row_pure a b y xs :
  (∀ x, x ∈ xs → inside a x y ∧ inside b x y) →
  tile_is_same_row a b y xs
  = Ok (forallb (fun x => pixel_same (im_data a x y) (im_data b x y)) xs).
Proof.
  induction xs as [|x xs IH]; intros Hin; [done|].
  destruct (Hin x) as [Ha Hb]; [left|].
  assert (Hrest : ∀ x', x' ∈ xs → inside a x' y ∧ inside b x' y)
    by (intros; apply Hin; by right).
  cbn [tile_is_same_row forallb].
  rewrite (getpixel_inside a), (getpixel_inside b) by done. cbn.
  unfold pixel_same at 1.
  destruct (bool_decide (band3 (im_data a x y) = 0)
            && bool_decide (band3 (im_data b x y) = 0)); cbn; [by apply IH|].
  rewrite bool_decide_not.
  destruct (bool_decide (im_data a x y = im_data b x y)); cbn; [by apply IH|done].
Qed.

Lemma tile_is_same_rows_pure a b ys :
  size a = size b →
  (∀ y, y ∈ ys → 0 ≤ y < height a) →
  tile_is_same_rows a b ys
  = Ok (forallb
          (fun y => forallb
             (fun x => pixel_same (im_data a x y) (im_data b x y))
             (xrange 0 (width a)))
          ys).
Proof.
  intros [Hw Hh]%size_eq_iff.
  induction ys as [|y ys IH]; intros Hin; [done|].
  cbn [tile_is_same_rows forallb].
  rewrite tile_is_same_row_pure; cycle 1.
  { intros x Hx%elem_of_xrange.
    assert (0 ≤ y < height a) by (apply Hin; left).
    unfold inside. rewrite <- Hw, <- Hh. lia. }
  cbn.
  destruct (forallb _ (xrange 0 (width a))); cbn; [|done].
  apply IH. intros; apply Hin; by right.
Qed.

(** [tile_is_same] raises nothing: it returns the value of [tile_eqb]. *)
Lemma tile_is_same_eqb a b : tile_is_same a b = Ok (tile_eqb a b).
Proof.
  unfold tile_is_same, tile_eqb. rewrite bool_decide_not.
  destruct (bool_decide_reflect (size a = size b)) as [Hs|Hs]; cbn; [|done].
  apply tile_is_same_rows_pure; [done|].
  by intros y Hy%elem_of_xrange.
Qed.

Lemma tile_eqb_match a b : tile_eqb a b = true ↔ tiles_match a b.
Proof.
  unfold tile_eqb, tiles_match.
  rewrite andb_true_iff, bool_decide_eq_true, forallb_forall.
  apply and_iff_compat_l. split.
  - intros H x y [Hx Hy]. apply pixel_same_match.
    specialize (H y). rewrite forallb_forall in H.
    apply H; apply list_elem_of_In, elem_of_xrange; lia.
  - intros H y Hy%list_elem_of_In%elem_of_xrange.
    apply forallb_forall. intros x Hx%list_elem_of_In%elem_of_xrange.
    apply pixel_same_match, H. by split.
Qed.

Lemma is_same_eqb a b : is_same a b = tile_eqb a b.
Proof. unfold is_same. rewrite tile_is_same_eqb. by destruct (tile_eqb a b). Qed.

Lemma tile_is_same_true a b : tile_is_same a b = Ok true ↔ tiles_match a b.
Proof.
  rewrite tile_is_same_eqb, <- tile_eqb_match.
  split; [by inversion 1|by intros ->].
Qed.

Lemma tile_is_same_false a b : tile_is_same a b = Ok false ↔ ¬ tiles_match a b.
Proof.
  rewrite tile_is_same_eqb, <- tile_eqb_match.
  destruct (tile_eqb a b); naive_solver.
Qed.

Lemma getpixel_Ok im x y p :
  getpixel im (x, y) = Ok p ↔ inside im x y ∧ p = im_data im x y.
Proof.
  unfold getpixel. destruct (decide (inside im x y)) as [Hin|Hout].
  - split; [by intros [= <-]|by intros [_ ->]].
  - split; [done|by intros [? _]].
Qed.

Lemma inside_same_size a b x y : size a = size b → inside a x y → inside b x y.
Proof. intros [Hw Hh]%size_eq_iff. unfold inside. by rewrite Hw, Hh. Qed.

(** *** The pixel relation and the tile relation are equivalences *)

#[export] Instance pixel_match_equiv : Equivalence pixel_match.
Proof.
  unfold pixel_match. split.
  - intros p. by right.
  - intros p q [[]| ->]; [left|right]; done.
  - intros p q r [[Hp Hq]| ->] [[Hq' Hr]| <-]; auto.
Qed.

Lemma tiles_match_refl a : tiles_match a a.
Proof. split; [done|]. intros. reflexivity. Qed.

Lemma tiles_match_sym a b : tiles_match a b → tiles_match b a.
Proof.
  intros [Hs H]. split; [done|].
  intros x y Hin. symmetry. apply H. by apply (inside_same_size b a).
Qed.

Lemma tiles_match_trans a b c :
  tiles_match a b → tiles_match b c → tiles_match a c.
Proof.
  intros [Hab H1] [Hbc H2]. split; [congruence|].
  intros x y Hin. etrans; [by apply H1|].
  apply H2. by apply (inside_same_size a b).
Qed.

Lemma tiles_match_size a b : tiles_match a b → size a = size b.
Proof. by intros [? _]. Qed.

Lemma tile_eqb_sym a b : tile_eqb a b = tile_eqb b a.
Proof.
  apply eq_iff_eq_true. rewrite !tile_eqb_match.
  split; apply tiles_match_sym.
Qed.

(** C1.  [tile_is_same] always returns a boolean, and returns [True]
    exactly when the two tiles have the same width and height and at every
    pixel position either both alphas are 0 or the two 4-tuples are
    identical.  In particular tiles of one size that differ only where both
    alphas are 0 are the same, and a difference at a pixel where one side
    has alpha > 0 makes them different. *)
Theorem tile_is_same_correct (tile new_tile : Image) :
  (∃ b, tile_is_same tile new_tile = Ok b) ∧
  (tile_is_same tile new_tile = Ok true ↔
     (width tile = width new_tile ∧ height tile = height new_tile) ∧
     ∀ x y p q,
       getpixel tile (x, y) = Ok p → getpixel new_tile (x, y) = Ok q →
       (band3 p = 0 ∧ band3 q = 0) ∨ p = q) ∧
  (size tile = size new_tile →
   (∀ x y p q,
      getpixel tile (x, y) = Ok p → getpixel new_tile (x, y) = Ok q →
      p ≠ q → band3 p = 0 ∧ band3 q = 0) →
   tile_is_same tile new_tile = Ok true) ∧
  (∀ x y p q,
     getpixel tile (x, y) = Ok p → getpixel new_tile (x, y) = Ok q →
     0 < band3 p ∨ 0 < band3 q → p ≠ q →
     tile_is_same tile new_tile = Ok false).
Proof.
  split_and!.
  - rewrite tile_is_same_eqb. eauto.
  - rewrite tile_is_same_true, <- size_eq_iff. unfold tiles_match.
    split; intros [Hs H]; (split; [done|]).
    + intros x y p q [Ha ->]%getpixel_Ok [Hb ->]%getpixel_Ok. by apply H.
    + intros x y Hin.
      apply (H x y); apply getpixel_Ok; split; try done.
      by apply (inside_same_size tile).
  - intros Hs H. apply tile_is_same_true. split; [done|].
    intros x y Hin.
    destruct (decide (im_data tile x y = im_data new_tile x y)) as [|Hne];
      [by right|left].
    apply (H x y); try done; apply getpixel_Ok; split; try done.
    by apply (inside_same_size tile).
  - intros x y p q [Ha ->]%getpixel_Ok [Hb ->]%getpixel_Ok Halpha Hne.
    apply tile_is_same_false. intros [_ H].
    destruct (H x y Ha) as [[]|]; [lia|done].
Qed.

(** The transparency wildcard and the opaque difference on 2 x 2 tiles:
    [pattern] and [pattern'] differ only behind their transparent pixel;
    [pattern] and [pattern_opaque] differ at the opaque pixel (1, 0). *)
Lemma tile_is_same_correct_witness :
  tile_is_same Samples.pattern Samples.pattern' = Ok true ∧
  tile_is_same Samples.pattern Samples.pattern_opaque = Ok false.
Proof.
  split.
  - destruct (tile_is_same_correct Samples.pattern Samples.pattern')
      as (_ & _ & Hwild & _).
    apply Hwild; [reflexivity|].
    intros x y p q [[Hx Hy] ->]%getpixel_Ok [_ ->]%getpixel_Ok.
    assert ((x = 0 ∨ x = 1) ∧ (y = 0 ∨ y = 1)) as [[-> | ->] [-> | ->]]
      by (unfold width, height in *; cbn in *; lia);
      vm_compute; intros Hne; try done; by destruct Hne.
  - destruct (tile_is_same_correct Samples.pattern Samples.pattern_opaque)
      as (_ & _ & _ & Hopaque).
    apply (Hopaque 1 0 (1, 0, 7, 255) (1, 0, 8, 255));
      [reflexivity|reflexivity|left; reflexivity|discriminate].
Defined.

(** C10.  [tile_is_same] is reflexive, symmetric and transitive (on all
    tiles, so also on tiles of identical dimensions), and the pixel
    relation behind it is an equivalence. *)
Theorem tile_is_same_equivalence :
  (∀ a, tile_is_same a a = Ok true) ∧
  (∀ a b, tile_is_same a b = tile_is_same b a) ∧
  (∀ a b c,
     tile_is_same a b = Ok true → tile_is_same b c = Ok true →
     tile_is_same a c = Ok true) ∧
  Equivalence pixel_match.
Proof.
  split_and!.
  - intros a. apply tile_is_same_true, tiles_match_refl.
  - intros a b. rewrite !tile_is_same_eqb. f_equal. apply tile_eqb_sym.
  - intros a b c. rewrite !tile_is_same_true. apply tiles_match_trans.
  - apply _.
Qed.

Lemma tile_is_same_equivalence_witness :
  tile_is_same Samples.pattern Samples.pattern'' = Ok true.
Proof.
  destruct tile_is_same_equivalence as (_ & _ & Htrans & _).
  apply (Htrans Samples.pattern Samples.pattern' Samples.pattern'');
    vm_compute; reflexivity.
Defined.

(** ** [create_tile_list] as a fold *)

Lemma add_tile_scan_pure tile_list new_tile :
  add_tile_scan tile_list new_tile
  = Ok (negb (existsb (fun k => is_same k new_tile) tile_list)).
Proof.
  induction tile_list as [|tile rest IH]; [done|].
  cbn [add_tile_scan existsb].
  rewrite is_same_eqb, tile_is_same_eqb. cbn.
  by destruct (tile_eqb tile new_tile).
Qed.

Lemma create_tile_list_cols_pure im tile_w tile_h y xs tile_list :
  create_tile_list_cols im tile_w tile_h y xs tile_list
  = Ok (foldl keep_unmatched tile_list
          (map (fun x => crop im (cell_box tile_w tile_h y x)) xs)).
Proof.
  revert tile_list. induction xs as [|x xs IH]; intros tile_list; [done|].
  cbn [create_tile_list_cols map foldl].
  rewrite add_tile_scan_pure. cbn. rewrite IH. do 2 f_equal.
  unfold keep_unmatched, new_tile_at, cell_box.
  by destruct (existsb _ tile_list).
Qed.

Lemma create_tile_list_rows_pure im tile_w tile_h ys tile_list :
  tile_w ≠ 0 →
  create_tile_list_rows im tile_w tile_h ys tile_list
  = Ok (foldl keep_unmatched tile_list
          (flat_map
             (fun y => map (fun x => crop im (cell_box tile_w tile_h y x))
                         (xrange 0 (width im / tile_w)))
             ys)).
Proof.
  intros Hw. revert tile_list.
  induction ys as [|y ys IH]; intros tile_list; [done|].
  cbn [create_tile_list_rows flat_map].
  unfold floordiv. rewrite decide_False by done. cbn.
  rewrite create_tile_list_cols_pure. cbn.
  by rewrite IH, foldl_app.
Qed.

Lemma map_flat_map_comp {A B C} (f : B → C) (g : A → list B) l :
  map f (flat_map g l) = flat_map (fun a => map f (g a)) l.
Proof.
  induction l as [|a l IH]; [done|].
  cbn. by rewrite map_app, IH.
Qed.

Lemma grid_tiles_rows im tile_w tile_h :
  grid_tiles im tile_w tile_h
  = flat_map
      (fun y => map (fun x => crop im (cell_box tile_w tile_h y x))
                  (xrange 0 (width im / tile_w)))
      (xrange 0 (height im / tile_h)).
Proof.
  unfold grid_tiles, grid_boxes. rewrite map_flat_map_comp.
  apply flat_map_ext. intros row. apply map_map.
Qed.

Lemma create_tile_list_pure im tile_w tile_h :
  tile_w ≠ 0 → tile_h ≠ 0 →
  create_tile_list im tile_w tile_h
  = Ok (first_seen (grid_tiles im tile_w tile_h)).
Proof.
  intros Hw Hh. unfold create_tile_list, size, floordiv.
  rewrite decide_False by done. cbn.
  by rewrite create_tile_list_rows_pure, grid_tiles_rows.
Qed.

Lemma create_tile_list_no_rows im tile_w tile_h :
  tile_h ≠ 0 → height im / tile_h ≤ 0 →
  create_tile_list im tile_w tile_h = Ok [].
Proof.
  intros Hh Hrows. unfold create_tile_list, size, floordiv, xrange.
  rewrite decide_False by done. cbn.
  by rewrite seqZ_nil by lia.
Qed.

(** The two ways [create_tile_list] raises: a zero [tile_h], and a zero
    [tile_w] once there is a grid row to scan. *)
Lemma create_tile_list_zero_height im tile_w :
  create_tile_list im tile_w 0 = Raise ZeroDivisionError.
Proof. done. Qed.

Lemma create_tile_list_zero_width im tile_h :
  0 < height im / tile_h →
  create_tile_list im 0 tile_h = Raise ZeroDivisionError.
Proof.
  intros Hrows. unfold create_tile_list, size, floordiv, xrange.
  destruct (decide (tile_h = 0)) as [->|_]; [done|]. cbn.
  by rewrite seqZ_cons by lia.
Qed.

(** ** The kept tiles *)

Lemma first_seen_snoc pre t :
  first_seen (pre ++ [t]) = keep_unmatched (first_seen pre) t.
Proof. unfold first_seen. by rewrite foldl_app. Qed.

Lemma keep_unmatched_prefix kept t : kept `prefix_of` keep_unmatched kept t.
Proof.
  unfold keep_unmatched. destruct (existsb _ kept); [done|].
  by apply prefix_app_r.
Qed.

Lemma foldl_keep_prefix scan kept :
  kept `prefix_of` foldl keep_unmatched kept scan.
Proof.
  revert kept. induction scan as [|t scan IH]; intros kept; [done|].
  cbn. etrans; [apply keep_unmatched_prefix|apply IH].
Qed.

Lemma foldl_keep_sublist scan kept :
  ∃ added, foldl keep_unmatched kept scan = kept ++ added
           ∧ added `sublist_of` scan.
Proof.
  revert kept. induction scan as [|t scan IH]; intros kept.
  { exists []. by rewrite app_nil_r. }
  cbn. destruct (IH (keep_unmatched kept t)) as (added & -> & Hsub).
  unfold keep_unmatched. destruct (existsb _ kept).
  - exists added. split; [done|]. by apply sublist_cons.
  - exists (t :: added). rewrite <- app_assoc. split; [done|].
    by apply sublist_skip.
Qed.

Lemma existsb_is_same kept t :
  existsb (fun k => is_same k t) kept = true
  ↔ ∃ k, k ∈ kept ∧ is_same k t = true.
Proof.
  rewrite existsb_exists. by setoid_rewrite list_elem_of_In.
Qed.

Lemma is_same_refl t : is_same t t = true.
Proof. rewrite is_same_eqb. apply tile_eqb_match, tiles_match_refl. Qed.

Lemma is_same_sym a b : is_same a b = is_same b a.
Proof. rewrite !is_same_eqb. apply tile_eqb_sym. Qed.

Lemma is_same_trans a b c :
  is_same a b = true → is_same b c = true → is_same a c = true.
Proof. rewrite !is_same_eqb, !tile_eqb_match. apply tiles_match_trans. Qed.

Lemma is_same_true a b : is_same a b = true ↔ tile_is_same a b = Ok true.
Proof.
  rewrite is_same_eqb, tile_is_same_eqb.
  split; [by intros ->|by intros [= ->]].
Qed.

Lemma is_same_false a b : is_same a b = false ↔ tile_is_same a b = Ok false.
Proof.
  rewrite is_same_eqb, tile_is_same_eqb.
  split; [by intros ->|by intros [= ->]].
Qed.

(** Every scanned tile is represented among the kept ones. *)
Lemma foldl_keep_represented scan kept t :
  t ∈ kept ++ scan →
  ∃ k, k ∈ foldl keep_unmatched kept scan ∧ is_same k t = true.
Proof.
  revert kept. induction scan as [|u scan IH]; intros kept Hin.
  { rewrite app_nil_r in Hin. exists t. split; [done|apply is_same_refl]. }
  cbn. rewrite elem_of_app, elem_of_cons in Hin.
  destruct Hin as [Hin|[->|Hin]].
  - apply IH, elem_of_app. left.
    eapply elem_of_prefix; [done|apply keep_unmatched_prefix].
  - destruct (existsb (fun k => is_same k u) kept) eqn:E.
    + apply existsb_is_same in E as (k & Hk & Hsame).
      exists k. split; [|done].
      eapply elem_of_prefix; [|apply foldl_keep_prefix].
      eapply elem_of_prefix; [done|apply keep_unmatched_prefix].
    + apply IH, elem_of_app. left. unfold keep_unmatched. rewrite E.
      apply elem_of_app. right. by apply list_elem_of_singleton.
  - apply IH, elem_of_app. by right.
Qed.

(** What was kept is unchanged by a scan of tiles that all match it. *)
Lemma foldl_keep_all_matched scan kept :
  (∀ t, t ∈ scan → ∃ k, k ∈ kept ∧ is_same k t = true) →
  foldl keep_unmatched kept scan = kept.
Proof.
  induction scan as [|t scan IH]; intros H; [done|].
  cbn. unfold keep_unmatched at 2.
  destruct (existsb _ kept) eqn:E.
  - apply IH. intros; apply H. by right.
  - destruct (H t) as (k & Hk & Hs); [left|].
    assert (existsb (fun k => is_same k t) kept = true)
      by (apply existsb_is_same; eauto).
    congruence.
Qed.

Lemma keep_unmatched_distinct kept t :
  distinct_tiles kept → distinct_tiles (keep_unmatched kept t).
Proof.
  intros Hd. unfold keep_unmatched.
  destruct (existsb _ kept) eqn:E; [done|].
  intros i j a b Hij Ha Hb.
  destruct (decide (j < length kept)%nat) as [Hj|Hj].
  - rewrite lookup_app_l in Ha, Hb by lia. by apply (Hd i j).
  - assert (j = length kept) as ->.
    { apply lookup_lt_Some in Hb. rewrite length_app in Hb. cbn in Hb. lia. }
    rewrite lookup_app_l in Ha by lia.
    rewrite list_lookup_middle in Hb by done. injection Hb as <-.
    destruct (is_same a t) eqn:Es; [|done].
    assert (existsb (fun k => is_same k t) kept = true).
    { apply existsb_is_same. exists a. split; [|done].
      by eapply list_elem_of_lookup_2. }
    congruence.
Qed.

Lemma foldl_keep_distinct scan kept :
  distinct_tiles kept → distinct_tiles (foldl keep_unmatched kept scan).
Proof.
  revert kept. induction scan as [|t scan IH]; intros kept Hd; [done|].
  cbn. by apply IH, keep_unmatched_distinct.
Qed.

Lemma first_seen_distinct scan : distinct_tiles (first_seen scan).
Proof. apply foldl_keep_distinct. by intros i j a b _ ?. Qed.

(** ** The grid *)

Lemma elem_of_grid_boxes w h tile_w tile_h box :
  box ∈ grid_boxes w h tile_w tile_h ↔
  ∃ row col, 0 ≤ row < h / tile_h ∧ 0 ≤ col < w / tile_w
             ∧ box = cell_box tile_w tile_h row col.
Proof.
  unfold grid_boxes. rewrite list_elem_of_In, in_flat_map. split.
  - intros (row & Hrow%list_elem_of_In%elem_of_xrange & Hbox).
    apply in_map_iff in Hbox
      as (col & <- & Hcol%list_elem_of_In%elem_of_xrange).
    by exists row, col.
  - intros (row & col & Hrow & Hcol & ->). exists row. split.
    + by apply list_elem_of_In, elem_of_xrange.
    + apply in_map, list_elem_of_In, elem_of_xrange. done.
Qed.

Lemma length_xrange n : length (xrange 0 n) = Z.to_nat n.
Proof. unfold xrange. rewrite length_seqZ. f_equal. lia. Qed.

Lemma lookup_xrange n k :
  0 ≤ k < n → xrange 0 n !! Z.to_nat k = Some k.
Proof.
  intros Hk. unfold xrange. rewrite lookup_seqZ_lt by lia. f_equal. lia.
Qed.

Lemma lookup_flat_map_const {A B} (g : A → list B) (l : list A) c i j a :
  (∀ a', length (g a') = c) → l !! i = Some a → (j < c)%nat →
  flat_map g l !! (i * c + j)%nat = g a !! j.
Proof.
  intros Hlen. revert i.
  induction l as [|a0 l IH]; intros i Hi Hj; [done|].
  cbn [flat_map]. destruct i as [|i].
  - injection Hi as ->. rewrite lookup_app_l by (rewrite Hlen; lia). done.
  - rewrite lookup_app_r by (rewrite Hlen; lia).
    rewrite Hlen. replace (S i * c + j - c)%nat with (i * c + j)%nat by lia.
    by apply IH.
Qed.

Lemma length_flat_map_const {A B} (g : A → list B) (l : list A) c :
  (∀ a', length (g a') = c) → length (flat_map g l) = (length l * c)%nat.
Proof.
  intros Hlen. induction l as [|a l IH]; [done|].
  cbn. rewrite length_app, Hlen, IH. lia.
Qed.

(** Row-major order: cell (row, col) is number [row * cols + col]. *)
Lemma lookup_grid_boxes w h tile_w tile_h row col :
  0 ≤ row < h / tile_h → 0 ≤ col < w / tile_w →
  grid_boxes w h tile_w tile_h !! Z.to_nat (row * (w / tile_w) + col)
  = Some (cell_box tile_w tile_h row col).
Proof.
  intros Hrow Hcol. unfold grid_boxes.
  replace (Z.to_nat (row * (w / tile_w) + col))
    with (Z.to_nat row * Z.to_nat (w / tile_w) + Z.to_nat col)%nat by lia.
  rewrite (lookup_flat_map_const _ _ (Z.to_nat (w / tile_w)) _ _ row).
  - rewrite list_lookup_fmap, lookup_xrange by done. done.
  - intros. by rewrite length_map, length_xrange.
  - by apply lookup_xrange.
  - lia.
Qed.

Lemma length_grid_boxes w h tile_w tile_h :
  length (grid_boxes w h tile_w tile_h)
  = (Z.to_nat (h / tile_h) * Z.to_nat (w / tile_w))%nat.
Proof.
  unfold grid_boxes.
  rewrite (length_flat_map_const _ _ (Z.to_nat (w / tile_w))).
  - by rewrite length_xrange.
  - intros. by rewrite length_map, length_xrange.
Qed.

Lemma size_cell_tile im tile_w tile_h row col :
  0 ≤ tile_w → 0 ≤ tile_h →
  size (crop im (cell_box tile_w tile_h row col)) = (tile_w, tile_h).
Proof.
  intros. unfold size, width, height, crop, cell_box. cbn. f_equal; lia.
Qed.

Lemma cell_inside_image im tile_w tile_h row col dx dy :
  0 < tile_w → 0 < tile_h →
  0 ≤ row < height im / tile_h → 0 ≤ col < width im / tile_w →
  0 ≤ dx < tile_w → 0 ≤ dy < tile_h →
  0 ≤ col * tile_w + dx < width im / tile_w * tile_w
  ∧ 0 ≤ row * tile_h + dy < height im / tile_h * tile_h
  ∧ inside im (col * tile_w + dx) (row * tile_h + dy).
Proof.
  intros Hw Hh Hrow Hcol Hdx Hdy.
  pose proof (Z.mul_div_le (width im) tile_w Hw).
  pose proof (Z.mul_div_le (height im) tile_h Hh).
  unfold inside. nia.
Qed.

(** A pixel of a grid tile is the source pixel at the same place of its
    cell. *)
Lemma getpixel_cell_tile im tile_w tile_h row col dx dy :
  0 < tile_w → 0 < tile_h →
  0 ≤ row < height im / tile_h → 0 ≤ col < width im / tile_w →
  0 ≤ dx < tile_w → 0 ≤ dy < tile_h →
  getpixel (crop im (cell_box tile_w tile_h row col)) (dx, dy)
  = Ok (im_data im (col * tile_w + dx) (row * tile_h + dy)).
Proof.
  intros Hw Hh Hrow Hcol Hdx Hdy.
  destruct (cell_inside_image im tile_w tile_h row col dx dy)
    as (_ & _ & Hin); try done.
  rewrite getpixel_inside.
  - cbn. by rewrite decide_True.
  - unfold inside, width, height. cbn. lia.
Qed.

(** ** The tile list *)

Lemma elem_of_first_seen scan t : t ∈ first_seen scan → t ∈ scan.
Proof.
  unfold first_seen. destruct (foldl_keep_sublist scan []) as (l & -> & Hsub).
  cbn. intros Ht. by eapply elem_of_sublist.
Qed.

Lemma first_seen_sublist scan : first_seen scan `sublist_of` scan.
Proof.
  unfold first_seen. by destruct (foldl_keep_sublist scan []) as (l & -> & Hsub).
Qed.

Lemma first_seen_prefix pre post :
  first_seen pre `prefix_of` first_seen (pre ++ post).
Proof. unfold first_seen. rewrite foldl_app. apply foldl_keep_prefix. Qed.

(** C2.  For positive tile dimensions [create_tile_list] returns a list,
    and no two tiles at distinct indices of it are the same under
    [tile_is_same]. *)
Theorem create_tile_list_no_duplicates (im : Image) (tile_w tile_h : Z) :
  0 < tile_w → 0 < tile_h →
  ∃ tile_list,
    create_tile_list im tile_w tile_h = Ok tile_list ∧
    ∀ (i j : nat) a b,
      i ≠ j → tile_list !! i = Some a → tile_list !! j = Some b →
      tile_is_same a b = Ok false.
Proof.
  intros Hw Hh. eexists. split; [apply create_tile_list_pure; lia|].
  intros i j a b Hij Ha Hb. apply is_same_false.
  destruct (decide (i < j)%nat).
  - by apply (first_seen_distinct (grid_tiles im tile_w tile_h) i j).
  - rewrite is_same_sym.
    apply (first_seen_distinct (grid_tiles im tile_w tile_h) j i);
      [lia|done..].
Qed.

Lemma create_tile_list_no_duplicates_witness :
  ∃ tile_list,
    create_tile_list Samples.red_blue 8 8 = Ok tile_list ∧
    ∀ (i j : nat) a b,
      i ≠ j → tile_list !! i = Some a → tile_list !! j = Some b →
      tile_is_same a b = Ok false.
Proof. apply (create_tile_list_no_duplicates Samples.red_blue 8 8); lia. Defined.

(** C3.  For positive tile dimensions the list [create_tile_list] returns
    is the subsequence of the row-major sequence of cropped tiles that
    keeps each tile matching no tile kept before it: it is a subsequence
    of the scan; along the scan the kept list only grows at its end, by
    the scanned tile exactly when no kept tile matches it; a kept tile
    matches no tile scanned before it; and every scanned tile is matched
    by a kept one. *)
Theorem create_tile_list_first_seen (im : Image) (tile_w tile_h : Z) :
  0 < tile_w → 0 < tile_h →
  create_tile_list im tile_w tile_h
  = Ok (first_seen (grid_tiles im tile_w tile_h)) ∧
  first_seen (grid_tiles im tile_w tile_h)
    `sublist_of` grid_tiles im tile_w tile_h ∧
  (∀ pre t post,
     grid_tiles im tile_w tile_h = pre ++ t :: post →
     first_seen (pre ++ [t])
       `prefix_of` first_seen (grid_tiles im tile_w tile_h) ∧
     first_seen (pre ++ [t])
     = (if existsb (fun k => is_same k t) (first_seen pre)
        then first_seen pre else first_seen pre ++ [t]) ∧
     (existsb (fun k => is_same k t) (first_seen pre) = false →
      ∀ t', t' ∈ pre → tile_is_same t' t = Ok false)) ∧
  (∀ t, t ∈ grid_tiles im tile_w tile_h →
     ∃ k, k ∈ first_seen (grid_tiles im tile_w tile_h)
          ∧ tile_is_same k t = Ok true).
Proof.
  intros Hw Hh. split_and!.
  - apply create_tile_list_pure; lia.
  - apply first_seen_sublist.
  - intros pre t post ->. split_and!.
    + rewrite (cons_middle t pre post), app_assoc. apply first_seen_prefix.
    + by rewrite first_seen_snoc.
    + intros Hnone t' Ht'. apply is_same_false.
      destruct (is_same t' t) eqn:Es; [|done].
      destruct (foldl_keep_represented pre [] t') as (k & Hk & Hkt'); [done|].
      assert (existsb (fun k => is_same k t) (first_seen pre) = true).
      { apply existsb_is_same. exists k. split; [done|].
        by apply (is_same_trans k t' t). }
      congruence.
  - intros t Ht.
    destruct (foldl_keep_represented (grid_tiles im tile_w tile_h) [] t)
      as (k & Hk & Hs); [done|].
    exists k. split; [done|]. by apply is_same_true.
Qed.

Lemma create_tile_list_first_seen_witness :
  create_tile_list Samples.red_blue 8 8
  = Ok [crop Samples.red_blue (0, 0, 8, 8); crop Samples.red_blue (8, 0, 16, 8)].
Proof.
  destruct (create_tile_list_first_seen Samples.red_blue 8 8) as [H _];
    [lia|lia|].
  rewrite H. vm_compute. reflexivity.
Defined.

Lemma elem_of_grid_tiles im tile_w tile_h t :
  t ∈ grid_tiles im tile_w tile_h ↔
  ∃ row col, 0 ≤ row < height im / tile_h ∧ 0 ≤ col < width im / tile_w
             ∧ t = crop im (cell_box tile_w tile_h row col).
Proof.
  unfold grid_tiles. rewrite list_elem_of_fmap. split.
  - intros (box & -> & (row & col & ? & ? & ->)%elem_of_grid_boxes).
    by exists row, col.
  - intros (row & col & ? & ? & ->). eexists. split; [done|].
    apply elem_of_grid_boxes. by exists row, col.
Qed.

(** ** What the tiles do not depend on *)

Lemma same_image_data a b x y :
  same_image a b → inside a x y → im_data a x y = im_data b x y.
Proof.
  intros [Hs H] Hin. specialize (H x y).
  rewrite !getpixel_inside in H by eauto using inside_same_size.
  by injection H.
Qed.

Lemma same_image_match a b : same_image a b → tiles_match a b.
Proof.
  intros Hab. split; [by destruct Hab|].
  intros x y Hin. right. by apply same_image_data.
Qed.

Lemma tile_eqb_same_image a a' b b' :
  same_image a a' → same_image b b' → tile_eqb a b = tile_eqb a' b'.
Proof.
  intros Ha%same_image_match Hb%same_image_match.
  apply eq_iff_eq_true. rewrite !tile_eqb_match. split; intros H.
  - eapply tiles_match_trans; [by apply tiles_match_sym|].
    by eapply tiles_match_trans.
  - eapply tiles_match_trans; [done|].
    eapply tiles_match_trans; [done|]. by apply tiles_match_sym.
Qed.

Lemma keep_unmatched_same_image kept kept' t t' :
  Forall2 same_image kept kept' → same_image t t' →
  Forall2 same_image (keep_unmatched kept t) (keep_unmatched kept' t').
Proof.
  intros Hk Ht. unfold keep_unmatched.
  assert (existsb (fun k => is_same k t) kept
          = existsb (fun k => is_same k t') kept') as ->.
  { induction Hk as [|k k' kept kept' Hkk' _ IH]; [done|].
    cbn. rewrite IH, !is_same_eqb. f_equal.
    by apply tile_eqb_same_image. }
  destruct (existsb _ kept'); [done|].
  apply Forall2_app; [done|]. by constructor.
Qed.

Lemma foldl_keep_same_image scan scan' kept kept' :
  Forall2 same_image scan scan' → Forall2 same_image kept kept' →
  Forall2 same_image (foldl keep_unmatched kept scan)
                     (foldl keep_unmatched kept' scan').
Proof.
  intros Hscan. revert kept kept'.
  induction Hscan as [|t t' scan scan' Ht _ IH]; intros kept kept' Hk;
    [done|].
  cbn. by apply IH, keep_unmatched_same_image.
Qed.

(** Images that agree on the part the grid covers have the same grid
    tiles. *)
Lemma grid_tiles_same_image im im' tile_w tile_h :
  0 < tile_w → 0 < tile_h →
  size im' = size im →
  (∀ x y,
     0 ≤ x < width im / tile_w * tile_w →
     0 ≤ y < height im / tile_h * tile_h →
     getpixel im' (x, y) = getpixel im (x, y)) →
  Forall2 same_image (grid_tiles im tile_w tile_h)
                     (grid_tiles im' tile_w tile_h).
Proof.
  intros Hw Hh Hsize Hagree. pose proof Hsize as [= Hsw Hsh].
  unfold grid_tiles. rewrite Hsw, Hsh.
  apply Forall2_fmap, Forall_Forall2_diag, Forall_forall.
  intros box (row & col & Hrow & Hcol & ->)%list_elem_of_In%elem_of_grid_boxes.
  split; [by rewrite !size_cell_tile by lia|].
  intros dx dy.
  destruct (decide (0 ≤ dx < tile_w ∧ 0 ≤ dy < tile_h)) as [[Hdx Hdy]|Hout].
  - destruct (cell_inside_image im tile_w tile_h row col dx dy)
      as (Hx & Hy & Hin); try done.
    rewrite getpixel_cell_tile by done.
    rewrite getpixel_cell_tile by (rewrite ?Hsw, ?Hsh; done).
    specialize (Hagree _ _ Hx Hy).
    rewrite !getpixel_inside in Hagree
      by eauto using inside_same_size.
    by rewrite Hagree.
  - rewrite !getpixel_outside; [done|..];
      unfold inside, width, height; cbn; lia.
Qed.

(** C4.  For positive tile dimensions [create_tile_list] crops exactly
    the half-open rectangles
    [(col*tile_w, row*tile_h, col*tile_w + tile_w, row*tile_h + tile_h)]
    for [0 <= row < im_h / tile_h] and [0 <= col < im_w / tile_w], in
    row-major order (cell (row, col) is number [row * cols + col] of
    [rows * cols]); every tile of the result is one of these crops, has
    size [tile_w] x [tile_h], and each of its pixels is a source pixel
    whose column is below [cols * tile_w] and whose row is below
    [rows * tile_h]; the pixels beyond do not matter: an image of the same
    size that agrees on the first [cols * tile_w] columns and
    [rows * tile_h] rows gives the same tiles. *)
Theorem create_tile_list_grid (im : Image) (tile_w tile_h : Z) :
  0 < tile_w → 0 < tile_h →
  create_tile_list im tile_w tile_h
  = Ok (first_seen
          (map (crop im) (grid_boxes (width im) (height im) tile_w tile_h))) ∧
  length (grid_boxes (width im) (height im) tile_w tile_h)
  = Z.to_nat ((height im / tile_h) * (width im / tile_w)) ∧
  (∀ row col,
     0 ≤ row < height im / tile_h → 0 ≤ col < width im / tile_w →
     grid_boxes (width im) (height im) tile_w tile_h
       !! Z.to_nat (row * (width im / tile_w) + col)
     = Some (col * tile_w, row * tile_h,
             col * tile_w + tile_w, row * tile_h + tile_h)) ∧
  (∀ tile_list t,
     create_tile_list im tile_w tile_h = Ok tile_list → t ∈ tile_list →
     ∃ row col,
       (0 ≤ row < height im / tile_h ∧ 0 ≤ col < width im / tile_w) ∧
       t = crop im (col * tile_w, row * tile_h,
                    col * tile_w + tile_w, row * tile_h + tile_h) ∧
       size t = (tile_w, tile_h) ∧
       ∀ dx dy, 0 ≤ dx < tile_w → 0 ≤ dy < tile_h →
         getpixel t (dx, dy)
         = getpixel im (col * tile_w + dx, row * tile_h + dy) ∧
         (∃ p, getpixel t (dx, dy) = Ok p) ∧
         col * tile_w + dx < width im / tile_w * tile_w ∧
         row * tile_h + dy < height im / tile_h * tile_h) ∧
  (∀ im',
     size im' = size im →
     (∀ x y,
        0 ≤ x < width im / tile_w * tile_w →
        0 ≤ y < height im / tile_h * tile_h →
        getpixel im' (x, y) = getpixel im (x, y)) →
     ∃ tile_list tile_list',
       create_tile_list im tile_w tile_h = Ok tile_list ∧
       create_tile_list im' tile_w tile_h = Ok tile_list' ∧
       Forall2 same_image tile_list tile_list').
Proof.
  intros Hw Hh. split_and!; cycle 4.
  { intros im' Hsize Hagree. eexists _, _.
    split; [apply create_tile_list_pure; lia|].
    split; [apply create_tile_list_pure; lia|].
    apply foldl_keep_same_image; [|done].
    by apply grid_tiles_same_image. }
  - apply create_tile_list_pure; lia.
  - rewrite length_grid_boxes.
    pose proof (Z.div_pos (height im) tile_h).
    pose proof (Z.div_pos (width im) tile_w).
    unfold width, height in *. lia.
  - intros row col Hrow Hcol. by apply lookup_grid_boxes.
  - intros tile_list t Hrun Ht.
    rewrite create_tile_list_pure in Hrun by lia. injection Hrun as <-.
    apply elem_of_first_seen, elem_of_grid_tiles in Ht
      as (row & col & Hrow & Hcol & ->).
    exists row, col. split; [done|]. split; [done|].
    split; [apply size_cell_tile; lia|].
    intros dx dy Hdx Hdy.
    destruct (cell_inside_image im tile_w tile_h row col dx dy)
      as (Hx & Hy & Hin); try done.
    fold (cell_box tile_w tile_h row col).
    rewrite getpixel_cell_tile, (getpixel_inside im) by done.
    split; [done|]. split; [by eexists|]. lia.
Qed.

(** Remainder truncation: a 20 x 20 image cut into 8 x 8 tiles. *)
Lemma create_tile_list_grid_witness :
  grid_boxes 20 20 8 8
  = [(0, 0, 8, 8); (8, 0, 16, 8); (0, 8, 8, 16); (8, 8, 16, 16)] ∧
  create_tile_list Samples.gradient 8 8
  = Ok (first_seen
          (map (crop Samples.gradient)
             [(0, 0, 8, 8); (8, 0, 16, 8); (0, 8, 8, 16); (8, 8, 16, 16)])).
Proof.
  destruct (create_tile_list_grid Samples.gradient 8 8) as [H _]; [lia|lia|].
  split; [reflexivity|exact H].
Defined.

(** C9.  When [tile_w] exceeds the image width or [tile_h] exceeds the
    image height, [create_tile_list] returns the empty list and raises
    nothing.  ([tile_h] is not zero: the tile dimensions are positive.) *)
Theorem create_tile_list_oversized_tile (im : Image) (tile_w tile_h : Z) :
  tile_h ≠ 0 →
  width im < tile_w ∨ height im < tile_h →
  create_tile_list im tile_w tile_h = Ok [].
Proof.
  intros Hh [Hbig|Hbig].
  - rewrite create_tile_list_pure by (unfold width in Hbig; lia).
    replace (grid_tiles im tile_w tile_h) with (@nil Image); [done|].
    symmetry. apply elem_of_nil_inv. intros t.
    rewrite elem_of_grid_tiles. intros (row & col & _ & Hcol & _).
    rewrite Z.div_small in Hcol by (unfold width in *; lia). lia.
  - apply create_tile_list_no_rows; [done|].
    rewrite Z.div_small by (unfold height in *; lia). done.
Qed.

Lemma create_tile_list_oversized_tile_witness :
  create_tile_list Samples.pattern 8 8 = Ok [].
Proof.
  apply (create_tile_list_oversized_tile Samples.pattern 8 8);
    [lia|left; vm_compute; reflexivity].
Defined.

(** ** An image made of copies of one pattern *)

Lemma size_tiled pattern k :
  size (tiled pattern k)
  = (Z.of_nat k * width pattern, Z.of_nat k * height pattern).
Proof. unfold size, width, height. cbn. f_equal; lia. Qed.

Lemma getpixel_tiled pattern k x y :
  inside (tiled pattern k) x y →
  getpixel (tiled pattern k) (x, y)
  = getpixel pattern (x `mod` width pattern, y `mod` height pattern).
Proof.
  intros Hin. rewrite (getpixel_inside _ _ _ Hin).
  destruct Hin as [Hx Hy].
  pose proof (size_tiled pattern k) as [Hw Hh]%pair_eq.
  change (fst (size (tiled pattern k))) with (width (tiled pattern k)) in Hw.
  change (snd (size (tiled pattern k))) with (height (tiled pattern k)) in Hh.
  rewrite getpixel_inside; [done|]. split; apply Z.mod_pos_bound; nia.
Qed.

(** A grid tile of an image of copies of [pattern] matches [pattern]. *)
Lemma cell_tile_matches_pattern pattern im k row col :
  0 < width pattern → 0 < height pattern →
  size im = (k * width pattern, k * height pattern) →
  (∀ x y, inside im x y →
     getpixel im (x, y)
     = getpixel pattern (x `mod` width pattern, y `mod` height pattern)) →
  0 ≤ row < k → 0 ≤ col < k →
  tiles_match (crop im (cell_box (width pattern) (height pattern) row col))
              pattern.
Proof.
  intros Hw Hh [= Hiw Hih] Hcopy Hrow Hcol.
  assert (Hrows : height im / height pattern = k)
    by (rewrite Hih; apply Z.div_mul; lia).
  assert (Hcols : width im / width pattern = k)
    by (rewrite Hiw; apply Z.div_mul; lia).
  split; [apply size_cell_tile; lia|].
  intros x y Hin. right.
  assert (0 ≤ x < width pattern ∧ 0 ≤ y < height pattern) as [Hx Hy].
  { unfold inside, width, height in Hin. cbn in Hin.
    unfold width, height. lia. }
  destruct (cell_inside_image im (width pattern) (height pattern)
              row col x y) as (_ & _ & Him); try done; try lia.
  cbn. rewrite decide_True by done.
  specialize (Hcopy _ _ Him).
  rewrite getpixel_inside in Hcopy by done.
  rewrite (Z.add_comm (col * _)), (Z.add_comm (row * _)) in Hcopy.
  rewrite !Z_mod_plus_full, !Z.mod_small in Hcopy by done.
  rewrite getpixel_inside in Hcopy by done.
  injection Hcopy as <-. f_equal; lia.
Qed.

(** C8.  On an image made of a [k] x [k] grid of copies of one
    [tile_w] x [tile_h] pattern, [k >= 1], [create_tile_list] returns a
    list of exactly one tile (the first cell, which matches the pattern). *)
Theorem create_tile_list_repeated_pattern (pattern im : Image) (k : Z) :
  0 < width pattern → 0 < height pattern → 1 ≤ k →
  size im = (k * width pattern, k * height pattern) →
  (∀ x y, inside im x y →
     getpixel im (x, y)
     = getpixel pattern (x `mod` width pattern, y `mod` height pattern)) →
  ∃ t,
    create_tile_list im (width pattern) (height pattern) = Ok [t] ∧
    t = crop im (0, 0, width pattern, height pattern) ∧
    tile_is_same t pattern = Ok true.
Proof.
  intros Hw Hh Hk Hsize Hcopy.
  pose proof Hsize as [= Hiw Hih].
  assert (Hrows : height im / height pattern = k)
    by (rewrite Hih; apply Z.div_mul; lia).
  assert (Hcols : width im / width pattern = k)
    by (rewrite Hiw; apply Z.div_mul; lia).
  assert (Hall : ∀ t, t ∈ grid_tiles im (width pattern) (height pattern) →
                      tiles_match t pattern).
  { intros t (row & col & Hrow & Hcol & ->)%elem_of_grid_tiles.
    apply (cell_tile_matches_pattern pattern im k); try done; lia. }
  assert (Hfirst : grid_tiles im (width pattern) (height pattern) !! 0%nat
                   = Some (crop im (0, 0, width pattern, height pattern))).
  { unfold grid_tiles. rewrite list_lookup_fmap.
    pose proof (lookup_grid_boxes (width im) (height im)
                  (width pattern) (height pattern) 0 0) as H0.
    rewrite Z.mul_0_l, Z.add_0_l in H0.
    change (Z.to_nat 0) with 0%nat in H0. rewrite H0 by lia. done. }
  destruct (grid_tiles im (width pattern) (height pattern))
    as [|t0 scan] eqn:Escan; [done|].
  injection Hfirst as ->.
  eexists. split_and!; [|done|].
  - rewrite create_tile_list_pure, Escan by lia.
    unfold first_seen. cbn. f_equal.
    apply foldl_keep_all_matched. intros t Ht.
    eexists. split; [by left|].
    rewrite is_same_eqb. apply tile_eqb_match.
    eapply tiles_match_trans; [apply Hall; by left|].
    apply tiles_match_sym, Hall. by right.
  - apply tile_is_same_true, Hall. by left.
Qed.

Lemma create_tile_list_repeated_pattern_witness :
  ∃ t,
    create_tile_list (tiled Samples.pattern 3) 2 2 = Ok [t] ∧
    t = crop (tiled Samples.pattern 3) (0, 0, 2, 2) ∧
    tile_is_same t Samples.pattern = Ok true.
Proof.
  apply (create_tile_list_repeated_pattern
           Samples.pattern (tiled Samples.pattern 3) 3).
  - vm_compute. reflexivity.
  - vm_compute. reflexivity.
  - lia.
  - vm_compute. reflexivity.
  - apply getpixel_tiled.
Defined.

(** ** [save_to_tileset] *)

Lemma tileset_size_formula tile_list tile_w tile_h :
  tileset_size tile_list tile_w tile_h
  = (tile_w * Z.min (len tile_list) 16,
     tile_h * (len tile_list / 16 + 1)).
Proof.
  unfold tileset_size, TILES_IN_ROW.
  case_bool_decide; f_equal; lia.
Qed.

Lemma enumerate_snoc {A} (l : list A) t :
  enumerate (l ++ [t]) = enumerate l ++ [(len l, t)].
Proof.
  unfold enumerate, len, xrange.
  rewrite length_app, Nat.add_1_r, !Z.sub_0_r, seqZ_S.
  rewrite zip_with_app; [done|].
  rewrite length_seqZ. lia.
Qed.

Lemma paste_tiles_snoc items i t tile_w tile_h tileset :
  paste_tiles (items ++ [(i, t)]) tile_w tile_h tileset
  = paste (paste_tiles items tile_w tile_h tileset) t
      (tile_offset tile_w tile_h i).
Proof.
  revert tileset. induction items as [|[j u] items IH]; intros ts; [done|].
  cbn. apply IH.
Qed.

Lemma size_paste dest src xy : size (paste dest src xy) = size dest.
Proof. by destruct xy. Qed.

Lemma size_paste_tiles items tile_w tile_h tileset :
  size (paste_tiles items tile_w tile_h tileset) = size tileset.
Proof.
  revert tileset. induction items as [|[j u] items IH]; intros ts; [done|].
  cbn [paste_tiles]. by rewrite IH, size_paste.
Qed.

(** Reading a pixel after one [paste] of a [tile_w] x [tile_h] tile at the
    offset of tile number [i]. *)
Lemma im_data_paste_cell dest tile tile_w tile_h i x y :
  size tile = (tile_w, tile_h) →
  im_data (paste dest tile (tile_offset tile_w tile_h i)) x y
  = if decide (in_cell tile_w tile_h i x y)
    then im_data tile (x - (i `mod` 16) * tile_w) (y - (i / 16) * tile_h)
    else im_data dest x y.
Proof.
  intros [= Hw Hh]. unfold tile_offset, TILES_IN_ROW. cbn.
  destruct (decide (in_cell tile_w tile_h i x y)) as [Hc|Hc].
  - rewrite decide_True; [done|]. unfold inside, in_cell in *. lia.
  - rewrite decide_False; [done|]. unfold inside, in_cell in *. lia.
Qed.

(** Distinct tile numbers have disjoint cells. *)
Lemma in_cell_inj tile_w tile_h i j x y :
  in_cell tile_w tile_h i x y → in_cell tile_w tile_h j x y → i = j.
Proof.
  unfold in_cell. intros [Hix Hiy] [Hjx Hjy].
  assert (i `mod` 16 = j `mod` 16) by nia.
  assert (i / 16 = j / 16) by nia.
  rewrite (Z.div_mod i 16), (Z.div_mod j 16) by done. congruence.
Qed.

Lemma in_cell_offset tile_w tile_h i dx dy :
  0 ≤ dx < tile_w → 0 ≤ dy < tile_h →
  in_cell tile_w tile_h i
    ((i `mod` 16) * tile_w + dx) ((i / 16) * tile_h + dy).
Proof. unfold in_cell. lia. Qed.

(** The contents of the tileset after all pastes. *)
Lemma im_data_paste_tiles tile_list tile_w tile_h tileset :
  Forall (fun t => size t = (tile_w, tile_h)) tile_list →
  (∀ (n : nat) tile dx dy,
     tile_list !! n = Some tile → 0 ≤ dx < tile_w → 0 ≤ dy < tile_h →
     im_data (paste_tiles (enumerate tile_list) tile_w tile_h tileset)
       ((Z.of_nat n `mod` 16) * tile_w + dx)
       ((Z.of_nat n / 16) * tile_h + dy)
     = im_data tile dx dy) ∧
  (∀ x y,
     (∀ i, 0 ≤ i < len tile_list → ¬ in_cell tile_w tile_h i x y) →
     im_data (paste_tiles (enumerate tile_list) tile_w tile_h tileset) x y
     = im_data tileset x y).
Proof.
  induction tile_list as [|t l IH] using rev_ind; intros Hsize.
  { split; [by intros n ?|done]. }
  rewrite Forall_app, Forall_singleton in Hsize. destruct Hsize as [Hl Ht].
  destruct (IH Hl) as [IHin IHout].
  rewrite enumerate_snoc, paste_tiles_snoc. split.
  - intros n tile dx dy Hn Hdx Hdy.
    rewrite im_data_paste_cell by done.
    pose proof (in_cell_offset tile_w tile_h (Z.of_nat n) dx dy Hdx Hdy) as Hc.
    destruct (decide (n < length l)%nat) as [Hlt|Hge].
    + rewrite lookup_app_l in Hn by done.
      rewrite decide_False; [by apply IHin|].
      intros Hc'. pose proof (in_cell_inj _ _ _ _ _ _ Hc Hc').
      unfold len in *. lia.
    + assert (n = length l) as ->.
      { apply lookup_lt_Some in Hn. rewrite length_app in Hn. cbn in Hn. lia. }
      rewrite list_lookup_middle in Hn by done. injection Hn as <-.
      fold (len l). rewrite decide_True by done. f_equal; lia.
  - intros x y Hnone.
    rewrite im_data_paste_cell by done.
    rewrite decide_False.
    + apply IHout. intros i Hi. apply Hnone.
      unfold len in *. rewrite length_app. lia.
    + apply Hnone. unfold len. rewrite length_app. cbn. lia.
Qed.

Lemma save_to_tileset_Ok tile_list tile_w tile_h :
  0 ≤ tile_w → 0 ≤ tile_h →
  ∃ blank,
    PIL.new (tileset_size tile_list tile_w tile_h) = Ok blank ∧
    size blank = (tile_w * Z.min (len tile_list) 16,
                  tile_h * (len tile_list / 16 + 1)) ∧
    (∀ x y, im_data blank x y = transparent) ∧
    save_to_tileset tile_list tile_w tile_h
    = Ok (paste_tiles (enumerate tile_list) tile_w tile_h blank).
Proof.
  intros Hw Hh. unfold save_to_tileset.
  rewrite tileset_size_formula. unfold PIL.new.
  assert (0 ≤ len tile_list) by (unfold len; lia).
  assert (0 ≤ len tile_list / 16) by (apply Z.div_pos; lia).
  rewrite decide_True by nia.
  eexists. split; [done|]. split_and!; [|done..].
  unfold size, width, height. cbn. f_equal; rewrite Z2Nat.id; nia.
Qed.

(** C5.  For a list of [tile_w] x [tile_h] tiles, [save_to_tileset]
    produces an image in which the tile at list index [i] lies with its
    top-left corner at [((i mod 16) * tile_w, (i / 16) * tile_h)], pixel
    for pixel as it is (its transparent pixels included), and every pixel
    outside the cells of the tiles is [(0, 0, 0, 0)]. *)
Theorem save_to_tileset_packing (tile_list : list Image) (tile_w tile_h : Z) :
  0 ≤ tile_w → 0 ≤ tile_h →
  Forall (fun t => size t = (tile_w, tile_h)) tile_list →
  ∃ tileset,
    save_to_tileset tile_list tile_w tile_h = Ok tileset ∧
    (∀ (i : nat) tile dx dy,
       tile_list !! i = Some tile → 0 ≤ dx < tile_w → 0 ≤ dy < tile_h →
       getpixel tileset ((Z.of_nat i `mod` 16) * tile_w + dx,
                         (Z.of_nat i / 16) * tile_h + dy)
       = getpixel tile (dx, dy)
       ∧ ∃ p, getpixel tile (dx, dy) = Ok p) ∧
    (∀ x y,
       inside tileset x y →
       (∀ i, 0 ≤ i < len tile_list → ¬ in_cell tile_w tile_h i x y) →
       getpixel tileset (x, y) = Ok (0, 0, 0, 0)).
Proof.
  intros Hw Hh Hsize.
  destruct (save_to_tileset_Ok tile_list tile_w tile_h Hw Hh)
    as (blank & _ & Hblank & Hzero & ->).
  destruct (im_data_paste_tiles tile_list tile_w tile_h blank Hsize)
    as [Hin Hout].
  eexists. split; [done|]. split.
  - intros i tile dx dy Hi Hdx Hdy.
    assert (Htile : inside tile dx dy).
    { rewrite Forall_lookup in Hsize. specialize (Hsize _ _ Hi).
      injection Hsize as Htw Hth. unfold inside. lia. }
    rewrite (getpixel_inside tile) by done.
    split; [|by eexists].
    rewrite getpixel_inside; [f_equal; by apply Hin|].
    pose proof (size_paste_tiles (enumerate tile_list) tile_w tile_h blank)
      as Hs.
    rewrite Hblank in Hs. injection Hs as Hsw Hsh.
    unfold inside. rewrite Hsw, Hsh.
    apply lookup_lt_Some in Hi.
    assert (HiN : 0 ≤ Z.of_nat i < len tile_list) by (unfold len; lia).
    pose proof (Z.mod_pos_bound (Z.of_nat i) 16 eq_refl).
    assert (Z.of_nat i `mod` 16 < Z.min (len tile_list) 16).
    { destruct (decide (len tile_list < 16)).
      - rewrite Z.mod_small by lia. lia.
      - lia. }
    assert (0 ≤ Z.of_nat i / 16 ≤ len tile_list / 16).
    { split; [apply Z.div_pos; lia|apply Z.div_le_mono; lia]. }
    nia.
  - intros x y Hxy Hnone.
    rewrite getpixel_inside by done. f_equal.
    rewrite Hout by done. apply Hzero.
Qed.

Lemma save_to_tileset_packing_witness :
  ∃ tileset,
    save_to_tileset
      [crop Samples.red_blue (0, 0, 8, 8); crop Samples.red_blue (8, 0, 16, 8)]
      8 8 = Ok tileset ∧
    (∀ (i : nat) tile dx dy,
       [crop Samples.red_blue (0, 0, 8, 8);
        crop Samples.red_blue (8, 0, 16, 8)] !! i = Some tile →
       0 ≤ dx < 8 → 0 ≤ dy < 8 →
       getpixel tileset ((Z.of_nat i `mod` 16) * 8 + dx,
                         (Z.of_nat i / 16) * 8 + dy)
       = getpixel tile (dx, dy)
       ∧ ∃ p, getpixel tile (dx, dy) = Ok p) ∧
    (∀ x y,
       inside tileset x y →
       (∀ i, 0 ≤ i < 2 → ¬ in_cell 8 8 i x y) →
       getpixel tileset (x, y) = Ok (0, 0, 0, 0)).
Proof.
  apply (save_to_tileset_packing
           [crop Samples.red_blue (0, 0, 8, 8);
            crop Samples.red_blue (8, 0, 16, 8)] 8 8); [lia|lia|].
  repeat constructor.
Defined.

(** C6.  For a tile list of length N, [save_to_tileset] asks [Image.new]
    for width [tile_w * min(N, 16)] and height
    [tile_h * (floor(N / 16) + 1)], and (for tile dimensions that are not
    negative) the image it produces has that size. *)
Theorem save_to_tileset_size (tile_list : list Image) (tile_w tile_h : Z) :
  tileset_size tile_list tile_w tile_h
  = (tile_w * Z.min (len tile_list) 16, tile_h * (len tile_list / 16 + 1)) ∧
  (0 ≤ tile_w → 0 ≤ tile_h →
   ∃ tileset,
     save_to_tileset tile_list tile_w tile_h = Ok tileset ∧
     width tileset = tile_w * Z.min (len tile_list) 16 ∧
     height tileset = tile_h * (len tile_list / 16 + 1)).
Proof.
  split; [apply tileset_size_formula|].
  intros Hw Hh.
  destruct (save_to_tileset_Ok tile_list tile_w tile_h Hw Hh)
    as (blank & _ & Hblank & _ & ->).
  eexists. split; [done|].
  pose proof (size_paste_tiles (enumerate tile_list) tile_w tile_h blank) as Hs.
  rewrite Hblank in Hs. by injection Hs.
Qed.

Lemma save_to_tileset_size_witness :
  ∃ tileset,
    save_to_tileset (replicate 3 (Samples.solid 8 8 Samples.red)) 8 8
    = Ok tileset ∧
    width tileset = 24 ∧ height tileset = 8.
Proof.
  destruct (save_to_tileset_size
              (replicate 3 (Samples.solid 8 8 Samples.red)) 8 8) as [_ H].
  apply H; lia.
Defined.

Lemma ceil_div_16 n :
  ceil_div n 16 = if decide (n `mod` 16 = 0) then n / 16 else n / 16 + 1.
Proof.
  unfold ceil_div. destruct (decide (n `mod` 16 = 0)) as [Hz|Hnz].
  - rewrite Z.div_opp_l_z by done. lia.
  - rewrite Z.div_opp_l_nz by done. lia.
Qed.

(** C7 as stated fails.  The 16 distinct 8 x 8 tiles of a 128 x 8 strip are
    packed into a 128 x 16 image: one full row of tiles and an empty row
    below it, where [ceil(16 / 16) * 8] is 8. *)
Lemma tileset_rows_not_ceil :
  ∃ tileset,
    create_tile_list Samples.strip16 8 8
    = Ok (grid_tiles Samples.strip16 8 8) ∧
    len (grid_tiles Samples.strip16 8 8) = 16 ∧
    save_to_tileset (grid_tiles Samples.strip16 8 8) 8 8 = Ok tileset ∧
    size tileset = (128, 16) ∧
    size tileset
    ≠ (Z.min (len (grid_tiles Samples.strip16 8 8)) 16 * 8,
       ceil_div (len (grid_tiles Samples.strip16 8 8)) 16 * 8).
Proof.
  destruct (save_to_tileset_Ok (grid_tiles Samples.strip16 8 8) 8 8)
    as (blank & _ & Hblank & _ & Hrun); [lia|lia|].
  eexists. split_and!; [|reflexivity|exact Hrun|..].
  - rewrite create_tile_list_pure by lia. f_equal.
  - by rewrite size_paste_tiles, Hblank.
  - rewrite size_paste_tiles, Hblank. vm_compute. discriminate.
Qed.

(** C7, amended.  The packed image has size
    [(min(N, 16) * tile_w) x ((floor(N / 16) + 1) * tile_h)].  Its height
    is [ceil(N / 16) * tile_h] when N is not a multiple of 16, and one
    tile row more when it is; for 17 tiles of 8 x 8 it is 128 x 16. *)
Theorem save_to_tileset_rows (tile_list : list Image) (tile_w tile_h : Z) :
  0 ≤ tile_w → 0 ≤ tile_h →
  ∃ tileset,
    save_to_tileset tile_list tile_w tile_h = Ok tileset ∧
    size tileset = (Z.min (len tile_list) 16 * tile_w,
                    (len tile_list / 16 + 1) * tile_h) ∧
    (len tile_list `mod` 16 ≠ 0 →
     size tileset = (Z.min (len tile_list) 16 * tile_w,
                     ceil_div (len tile_list) 16 * tile_h)) ∧
    (len tile_list `mod` 16 = 0 →
     size tileset = (Z.min (len tile_list) 16 * tile_w,
                     (ceil_div (len tile_list) 16 + 1) * tile_h)) ∧
    (len tile_list = 17 → tile_w = 8 → tile_h = 8 →
     size tileset = (128, 16)).
Proof.
  intros Hw Hh.
  destruct (save_to_tileset_Ok tile_list tile_w tile_h Hw Hh)
    as (blank & _ & Hblank & _ & ->).
  eexists. split; [done|].
  rewrite size_paste_tiles, Hblank, ceil_div_16.
  split_and!.
  - f_equal; lia.
  - intros Hnz. rewrite decide_False by done. f_equal; lia.
  - intros Hz. rewrite decide_True by done. f_equal; lia.
  - intros -> -> ->. reflexivity.
Qed.

Lemma save_to_tileset_rows_witness :
  ∃ tileset,
    save_to_tileset Samples.tiles17 8 8 = Ok tileset ∧
    size tileset = (128, 16).
Proof.
  destruct (save_to_tileset_rows Samples.tiles17 8 8)
    as (tileset & Hrun & _ & _ & _ & H17); [lia|lia|].
  exists tileset. split; [exact Hrun|]. apply H17; reflexivity.
Defined.

(** * Further properties of the program *)

(** ** When [create_tile_list] raises *)

(** X1.  [create_tile_list] raises [ZeroDivisionError] exactly when
    [tile_h] is 0, or [tile_w] is 0 and the image has at least one grid
    row; it raises nothing else, and in every other case it returns a
    list. *)
Theorem create_tile_list_raises (im : Image) (tile_w tile_h : Z) :
  (create_tile_list im tile_w tile_h = Raise ZeroDivisionError
   ↔ tile_h = 0 ∨ (tile_w = 0 ∧ 0 < height im / tile_h)) ∧
  (∀ e, create_tile_list im tile_w tile_h = Raise e → e = ZeroDivisionError) ∧
  (¬ (tile_h = 0 ∨ (tile_w = 0 ∧ 0 < height im / tile_h)) →
   ∃ tile_list, create_tile_list im tile_w tile_h = Ok tile_list).
Proof.
  destruct (decide (tile_h = 0)) as [->|Hh].
  { rewrite create_tile_list_zero_height.
    split_and!; [tauto|by intros e [= <-]|tauto]. }
  destruct (decide (0 < height im / tile_h)) as [Hrows|Hrows].
  - destruct (decide (tile_w = 0)) as [->|Hw].
    + rewrite create_tile_list_zero_width by done.
      split_and!; [tauto|by intros e [= <-]|tauto].
    + rewrite create_tile_list_pure by done.
      split_and!; [|done|eauto]. split; [done|]. intros [?|[? _]]; done.
  - rewrite create_tile_list_no_rows by (done || lia).
    split_and!; [|done|eauto]. split; [done|]. intros [?|[_ ?]]; done.
Qed.

(** X2.  A negative tile dimension (the other one not 0 where it is
    divided by) gives the empty list: the grid has no row or no column. *)
Theorem create_tile_list_negative_tile (im : Image) (tile_w tile_h : Z) :
  tile_h ≠ 0 → tile_w < 0 ∨ tile_h < 0 →
  create_tile_list im tile_w tile_h = Ok [].
Proof.
  assert (Hneg : ∀ a b, 0 ≤ a → b < 0 → a / b ≤ 0).
  { intros a b Ha Hb. rewrite <- Z.div_opp_opp by lia.
    apply Z.div_le_upper_bound; lia. }
  intros Hh [Hw|Hh'].
  - rewrite create_tile_list_pure by lia.
    replace (grid_tiles im tile_w tile_h) with (@nil Image); [done|].
    symmetry. apply elem_of_nil_inv. intros t.
    rewrite elem_of_grid_tiles. intros (row & col & _ & Hcol & _).
    specialize (Hneg (width im) tile_w). unfold width in *. lia.
  - apply create_tile_list_no_rows; [done|].
    apply Hneg; [unfold height; lia|done].
Qed.

Lemma create_tile_list_negative_tile_witness :
  create_tile_list Samples.gradient (-8) 8 = Ok [] ∧
  create_tile_list Samples.gradient 8 (-8) = Ok [].
Proof.
  split; apply create_tile_list_negative_tile; lia.
Defined.

(** ** When [save_to_tileset] raises *)


(** ** How many tiles are kept *)

Lemma grid_tiles_head im tile_w tile_h :
  0 < height im / tile_h → 0 < width im / tile_w →
  ∃ scan, grid_tiles im tile_w tile_h
          = crop im (0, 0, tile_w, tile_h) :: scan.
Proof.
  intros Hrows Hcols.
  assert (Hfirst : grid_tiles im tile_w tile_h !! 0%nat
                   = Some (crop im (0, 0, tile_w, tile_h))).
  { unfold grid_tiles. rewrite list_lookup_fmap.
    pose proof (lookup_grid_boxes (width im) (height im)
                  tile_w tile_h 0 0) as H0.
    rewrite Z.mul_0_l, Z.add_0_l in H0.
    change (Z.to_nat 0) with 0%nat in H0. rewrite H0 by lia. done. }
  destruct (grid_tiles im tile_w tile_h) as [|t0 scan]; [done|].
  injection Hfirst as ->. by exists scan.
Qed.

Lemma first_seen_cons t scan :
  ∃ rest, first_seen (t :: scan) = t :: rest.
Proof.
  destruct (foldl_keep_sublist scan [t]) as (l & Hl & _).
  exists l. exact Hl.
Qed.

Lemma first_seen_all_match t0 scan :
  (∀ t, t ∈ scan → is_same t0 t = true) → first_seen (t0 :: scan) = [t0].
Proof.
  intros H. unfold first_seen. cbn.
  apply foldl_keep_all_matched. intros t Ht.
  exists t0. split; [by left|by apply H].
Qed.

Lemma distinct_tiles_snoc pre t :
  distinct_tiles (pre ++ [t]) →
  distinct_tiles pre ∧ existsb (fun k => is_same k t) pre = false.
Proof.
  intros Hd. split.
  - intros i j a b Hij Ha Hb. apply (Hd i j); [done|..].
    + rewrite lookup_app_l; [done|]. by eapply lookup_lt_Some.
    + rewrite lookup_app_l; [done|]. by eapply lookup_lt_Some.
  - destruct (existsb _ pre) eqn:E; [|done].
    apply existsb_is_same in E as (k & Hk & Hs).
    apply list_elem_of_lookup in Hk as [i Hi].
    assert (is_same k t = false); [|congruence].
    apply (Hd i (length pre)).
    + by eapply lookup_lt_Some.
    + rewrite lookup_app_l; [done|]. by eapply lookup_lt_Some.
    + by rewrite list_lookup_middle.
Qed.

Lemma first_seen_keeps_distinct scan :
  distinct_tiles scan ↔ first_seen scan = scan.
Proof.
  split.
  - induction scan as [|t pre IH] using rev_ind; intros Hd; [done|].
    apply distinct_tiles_snoc in Hd as [Hpre Hnone].
    rewrite first_seen_snoc, IH by done.
    unfold keep_unmatched. by rewrite Hnone.
  - intros <-. apply first_seen_distinct.
Qed.

(** X4.  When at least one tile fits in the image, the list
    [create_tile_list] returns starts with the top-left cell, its tiles
    all have size [tile_w] x [tile_h], and it has at least one tile and at
    most one per grid cell. *)
Theorem create_tile_list_bounds (im : Image) (tile_w tile_h : Z) :
  0 < tile_w ≤ width im → 0 < tile_h ≤ height im →
  ∃ rest,
    create_tile_list im tile_w tile_h
    = Ok (crop im (0, 0, tile_w, tile_h) :: rest) ∧
    1 ≤ len (crop im (0, 0, tile_w, tile_h) :: rest)
      ≤ (height im / tile_h) * (width im / tile_w) ∧
    Forall (fun t => size t = (tile_w, tile_h))
      (crop im (0, 0, tile_w, tile_h) :: rest).
Proof.
  intros Hw Hh.
  assert (Hrows : 0 < height im / tile_h) by (apply Z.div_str_pos; lia).
  assert (Hcols : 0 < width im / tile_w) by (apply Z.div_str_pos; lia).
  destruct (grid_tiles_head im tile_w tile_h Hrows Hcols) as [scan Hscan].
  destruct (first_seen_cons (crop im (0, 0, tile_w, tile_h)) scan)
    as [rest Hrest].
  exists rest. rewrite create_tile_list_pure, Hscan, Hrest by lia.
  split; [done|]. split.
  - split; [unfold len; cbn; lia|].
    pose proof (sublist_length _ _ (first_seen_sublist (grid_tiles im tile_w tile_h)))
      as Hlen.
    rewrite Hscan, Hrest in Hlen. rewrite <- Hscan in Hlen.
    unfold grid_tiles in Hlen. rewrite length_map, length_grid_boxes in Hlen.
    unfold len. lia.
  - rewrite <- Hrest, <- Hscan. apply Forall_forall.
    intros t (row & col & _ & _ & ->)%list_elem_of_In%elem_of_first_seen%elem_of_grid_tiles.
    apply size_cell_tile; lia.
Qed.

Lemma create_tile_list_bounds_witness :
  ∃ rest,
    create_tile_list Samples.gradient 8 8
    = Ok (crop Samples.gradient (0, 0, 8, 8) :: rest) ∧
    1 ≤ len (crop Samples.gradient (0, 0, 8, 8) :: rest)
      ≤ (height Samples.gradient / 8) * (width Samples.gradient / 8) ∧
    Forall (fun t => size t = (8, 8))
      (crop Samples.gradient (0, 0, 8, 8) :: rest).
Proof.
  apply (create_tile_list_bounds Samples.gradient 8 8);
    unfold width, height; cbn; lia.
Defined.

(** X5.  For positive tile dimensions [create_tile_list] returns every
    grid tile, in row-major order, exactly when no grid tile is the same
    as an earlier one: a tile is only ever dropped for being a
    duplicate. *)
Theorem create_tile_list_keeps_all (im : Image) (tile_w tile_h : Z) :
  0 < tile_w → 0 < tile_h →
  (create_tile_list im tile_w tile_h = Ok (grid_tiles im tile_w tile_h)
   ↔ ∀ (i j : nat) a b,
       (i < j)%nat →
       grid_tiles im tile_w tile_h !! i = Some a →
       grid_tiles im tile_w tile_h !! j = Some b →
       tile_is_same a b = Ok false).
Proof.
  intros Hw Hh. rewrite create_tile_list_pure by lia.
  transitivity (distinct_tiles (grid_tiles im tile_w tile_h)).
  - rewrite first_seen_keeps_distinct.
    split; [by intros [= ?]|by intros ->].
  - unfold distinct_tiles. by setoid_rewrite is_same_false.
Qed.

Lemma create_tile_list_keeps_all_witness :
  create_tile_list Samples.red_blue 8 8 = Ok (grid_tiles Samples.red_blue 8 8).
Proof.
  apply (create_tile_list_keeps_all Samples.red_blue 8 8); [lia|lia|].
  intros i j a b Hij Ha Hb.
  assert (i = 0 ∧ j = 1)%nat as [-> ->].
  { apply lookup_lt_Some in Hb. change (j < 2)%nat in Hb. lia. }
  injection Ha as <-. injection Hb as <-. reflexivity.
Defined.

(** X6.  An image whose pixels are all fully transparent gives exactly one
    tile, whatever colour values lie behind the transparency. *)
Theorem create_tile_list_all_transparent (im : Image) (tile_w tile_h : Z) :
  0 < tile_w ≤ width im → 0 < tile_h ≤ height im →
  (∀ x y p, getpixel im (x, y) = Ok p → band3 p = 0) →
  create_tile_list im tile_w tile_h = Ok [crop im (0, 0, tile_w, tile_h)].
Proof.
  intros Hw Hh Halpha.
  assert (Hrows : 0 < height im / tile_h) by (apply Z.div_str_pos; lia).
  assert (Hcols : 0 < width im / tile_w) by (apply Z.div_str_pos; lia).
  assert (Hall : ∀ a b, a ∈ grid_tiles im tile_w tile_h →
                        b ∈ grid_tiles im tile_w tile_h → tiles_match a b).
  { intros a b (r1 & c1 & Hr1 & Hc1 & ->)%elem_of_grid_tiles
                 (r2 & c2 & Hr2 & Hc2 & ->)%elem_of_grid_tiles.
    split; [by rewrite !size_cell_tile by lia|].
    intros x y Hin. left.
    assert (0 ≤ x < tile_w ∧ 0 ≤ y < tile_h) as [Hx Hy].
    { unfold inside, width, height in Hin. cbn in Hin. lia. }
    destruct (cell_inside_image im tile_w tile_h r1 c1 x y)
      as (_ & _ & H1); try done; try lia.
    destruct (cell_inside_image im tile_w tile_h r2 c2 x y)
      as (_ & _ & H2); try done; try lia.
    cbn. rewrite !decide_True by done.
    split; eapply Halpha; by apply getpixel_inside. }
  destruct (grid_tiles_head im tile_w tile_h Hrows Hcols) as [scan Hscan].
  rewrite create_tile_list_pure, Hscan by lia. f_equal.
  apply first_seen_all_match. intros t Ht.
  rewrite is_same_eqb. apply tile_eqb_match, Hall; rewrite Hscan.
  - by left.
  - by right.
Qed.

Lemma create_tile_list_all_transparent_witness :
  create_tile_list
    {| im_cols := 16; im_rows := 16; im_data := fun x y => (x, y, 9, 0) |}
    8 8
  = Ok [crop {| im_cols := 16; im_rows := 16;
                im_data := fun x y => (x, y, 9, 0) |} (0, 0, 8, 8)].
Proof.
  apply create_tile_list_all_transparent;
    [unfold width, height; cbn; lia..|].
  intros x y p [_ ->]%getpixel_Ok. reflexivity.
Defined.

(** ** Tiles of any size: later pastes overwrite earlier ones *)

Lemma im_data_paste_covers dest tile tile_w tile_h i x y :
  im_data (paste dest tile (tile_offset tile_w tile_h i)) x y
  = if decide (covers tile_w tile_h i tile x y)
    then im_data tile (x - (i `mod` 16) * tile_w) (y - (i / 16) * tile_h)
    else im_data dest x y.
Proof. done. Qed.

Lemma im_data_paste_tiles_last tile_list tile_w tile_h tileset x y :
  (∀ (i : nat) tile,
     tile_list !! i = Some tile →
     covers tile_w tile_h (Z.of_nat i) tile x y →
     (∀ (j : nat) tile', (i < j)%nat → tile_list !! j = Some tile' →
                         ¬ covers tile_w tile_h (Z.of_nat j) tile' x y) →
     im_data (paste_tiles (enumerate tile_list) tile_w tile_h tileset) x y
     = im_data tile (x - (Z.of_nat i `mod` 16) * tile_w)
                    (y - (Z.of_nat i / 16) * tile_h)) ∧
  ((∀ (i : nat) tile,
      tile_list !! i = Some tile →
      ¬ covers tile_w tile_h (Z.of_nat i) tile x y) →
   im_data (paste_tiles (enumerate tile_list) tile_w tile_h tileset) x y
   = im_data tileset x y).
Proof.
  induction tile_list as [|t l [IHlast IHnone]] using rev_ind.
  { split; [by intros i ?|done]. }
  rewrite enumerate_snoc, paste_tiles_snoc, im_data_paste_covers.
  unfold len. split.
  - intros i tile Hi Hc Hlater.
    destruct (decide (i < length l)%nat) as [Hlt|Hge].
    + rewrite lookup_app_l in Hi by done.
      rewrite decide_False.
      * apply IHlast; [done..|]. intros j tile' Hij Hj.
        apply Hlater; [done|]. rewrite lookup_app_l; [done|].
        by eapply lookup_lt_Some.
      * apply (Hlater (length l)); [done|]. by rewrite list_lookup_middle.
    + assert (i = length l) as ->.
      { apply lookup_lt_Some in Hi. rewrite length_app in Hi. cbn in Hi. lia. }
      rewrite list_lookup_middle in Hi by done. injection Hi as <-.
      by rewrite decide_True.
  - intros Hnone. rewrite decide_False.
    + apply IHnone. intros i tile Hi. apply Hnone.
      rewrite lookup_app_l; [done|]. by eapply lookup_lt_Some.
    + apply Hnone. by rewrite list_lookup_middle.
Qed.

(** X7.  Whatever the sizes of the tiles in the list, an output pixel
    shows the last tile of the list whose pasted rectangle contains it,
    and is [(0, 0, 0, 0)] when there is none: a tile larger than
    [tile_w] x [tile_h] is overwritten by the tiles pasted after it. *)
Theorem save_to_tileset_overwrites
    (tile_list : list Image) (tile_w tile_h : Z) :
  0 ≤ tile_w → 0 ≤ tile_h →
  ∃ tileset,
    save_to_tileset tile_list tile_w tile_h = Ok tileset ∧
    size tileset = (tile_w * Z.min (len tile_list) 16,
                    tile_h * (len tile_list / 16 + 1)) ∧
    ∀ x y,
      inside tileset x y →
      (∀ (i : nat) tile,
         tile_list !! i = Some tile →
         covers tile_w tile_h (Z.of_nat i) tile x y →
         (∀ (j : nat) tile', (i < j)%nat → tile_list !! j = Some tile' →
                             ¬ covers tile_w tile_h (Z.of_nat j) tile' x y) →
         getpixel tileset (x, y)
         = getpixel tile (x - (Z.of_nat i `mod` 16) * tile_w,
                          y - (Z.of_nat i / 16) * tile_h)) ∧
      ((∀ (i : nat) tile,
          tile_list !! i = Some tile →
          ¬ covers tile_w tile_h (Z.of_nat i) tile x y) →
       getpixel tileset (x, y) = Ok (0, 0, 0, 0)).
Proof.
  intros Hw Hh.
  destruct (save_to_tileset_Ok tile_list tile_w tile_h Hw Hh)
    as (blank & _ & Hblank & Hzero & ->).
  eexists. split; [done|].
  split; [by rewrite size_paste_tiles|].
  intros x y Hin.
  destruct (im_data_paste_tiles_last tile_list tile_w tile_h blank x y)
    as [Hlast Hnone].
  rewrite getpixel_inside by done. split.
  - intros i tile Hi Hc Hlater.
    rewrite (getpixel_inside tile) by done. f_equal. by apply Hlast.
  - intros Hn. f_equal. rewrite Hnone by done. apply Hzero.
Qed.

(** A 16 x 8 red tile followed by an 8 x 8 blue one, packed as 8 x 8
    tiles: the blue tile hides the right half of the red one. *)
Lemma save_to_tileset_overwrites_witness :
  ∃ tileset,
    save_to_tileset
      [Samples.solid 16 8 Samples.red; Samples.solid 8 8 Samples.blue] 8 8
    = Ok tileset ∧
    getpixel tileset (3, 0) = Ok Samples.red ∧
    getpixel tileset (10, 0) = Ok Samples.blue.
Proof.
  destruct (save_to_tileset_overwrites
              [Samples.solid 16 8 Samples.red; Samples.solid 8 8 Samples.blue]
              8 8) as (tileset & Hrun & Hsize & Hpix); [lia|lia|].
  injection Hsize as Hsw Hsh.
  change (width tileset = 16) in Hsw. change (height tileset = 8) in Hsh.
  exists tileset. split; [exact Hrun|]. split.
  - destruct (Hpix 3 0) as [Hlast _]; [unfold inside; lia|].
    etrans; [apply (Hlast 0%nat (Samples.solid 16 8 Samples.red))|done].
    + done.
    + unfold covers. apply (bool_decide_unpack _). vm_compute. exact I.
    + intros [|[|j]] tile' Hj; [lia| |done].
      intros [= <-]. unfold covers.
      apply (bool_decide_unpack _). vm_compute. exact I.
  - destruct (Hpix 10 0) as [Hlast _]; [unfold inside; lia|].
    etrans; [apply (Hlast 1%nat (Samples.solid 8 8 Samples.blue))|done].
    + done.
    + unfold covers. apply (bool_decide_unpack _). vm_compute. exact I.
    + intros [|[|j]] tile' Hj; [lia|lia|done].
Defined.

(** ** The tileset cell by cell *)

Lemma cell_inside_tileset (n : Z) tile_w tile_h i dx dy :
  0 ≤ i < n → 0 ≤ dx < tile_w → 0 ≤ dy < tile_h →
  0 ≤ (i `mod` 16) * tile_w + dx < tile_w * Z.min n 16 ∧
  0 ≤ (i / 16) * tile_h + dy < tile_h * (n / 16 + 1).
Proof.
  intros Hi Hdx Hdy.
  pose proof (Z.mod_pos_bound i 16 eq_refl).
  assert (i `mod` 16 < Z.min n 16).
  { destruct (decide (n < 16)).
    - rewrite Z.mod_small by lia. lia.
    - lia. }
  assert (0 ≤ i / 16 ≤ n / 16).
  { split; [apply Z.div_pos; lia|apply Z.div_le_mono; lia]. }
  nia.
Qed.

(** Cut out of the tileset again, the cell of tile [i] looks the same as
    tile [i]. *)
Lemma crop_tileset_cell tile_list tile_w tile_h blank (i : nat) tile :
  Forall (fun t => size t = (tile_w, tile_h)) tile_list →
  size blank = (tile_w * Z.min (len tile_list) 16,
                tile_h * (len tile_list / 16 + 1)) →
  tile_list !! i = Some tile →
  same_image
    (crop (paste_tiles (enumerate tile_list) tile_w tile_h blank)
          (tileset_cell tile_w tile_h (Z.of_nat i)))
    tile.
Proof.
  intros Hsize Hblank Hi.
  destruct (im_data_paste_tiles tile_list tile_w tile_h blank Hsize)
    as [Hin _].
  pose proof Hsize as Hs. rewrite Forall_lookup in Hs.
  specialize (Hs _ _ Hi). pose proof Hs as [= Htw Hth].
  assert (0 ≤ tile_w ∧ 0 ≤ tile_h) as [Hw Hh]
    by (unfold width, height in *; lia).
  assert (Hcrop : size (crop (paste_tiles (enumerate tile_list)
                                tile_w tile_h blank)
                          (tileset_cell tile_w tile_h (Z.of_nat i)))
                  = (tile_w, tile_h)).
  { unfold size, width, height, tileset_cell. cbn. f_equal; lia. }
  split; [congruence|].
  intros x y.
  destruct (decide (inside tile x y)) as [Hxy|Hxy].
  - rewrite (getpixel_inside tile) by done.
    rewrite getpixel_inside
      by (eapply inside_same_size; [|done]; congruence).
    f_equal. unfold tileset_cell. cbn.
    assert (Hdx : 0 ≤ x < tile_w ∧ 0 ≤ y < tile_h)
      by (unfold inside in Hxy; lia).
    destruct Hdx as [Hdx Hdy].
    rewrite decide_True; [by apply (Hin i)|].
    pose proof (size_paste_tiles (enumerate tile_list) tile_w tile_h blank)
      as Hsz.
    rewrite Hblank in Hsz. injection Hsz as Hsw Hsh.
    unfold inside. rewrite Hsw, Hsh.
    apply cell_inside_tileset; [|done..].
    apply lookup_lt_Some in Hi. unfold len. lia.
  - rewrite (getpixel_outside tile) by done.
    rewrite getpixel_outside; [done|].
    intros Hc. apply Hxy. eapply inside_same_size; [|done]. congruence.
Qed.

Lemma main_unfold im tile_w tile_h :
  main im (Some tile_w) (Some tile_h)
  = (tiles ← create_tile_list im tile_w tile_h;
     save_to_tileset tiles tile_w tile_h).
Proof. done. Qed.

Lemma first_seen_size im tile_w tile_h :
  0 < tile_w → 0 < tile_h →
  Forall (fun t => size t = (tile_w, tile_h))
         (first_seen (grid_tiles im tile_w tile_h)).
Proof.
  intros Hw Hh. apply Forall_forall.
  intros t (row & col & _ & _ & ->)%list_elem_of_In%elem_of_first_seen%elem_of_grid_tiles.
  apply size_cell_tile; lia.
Qed.

(** ** [main]: from the image to the tileset *)

(** X8.  For positive tile dimensions [main] produces a tileset in which
    every grid cell of the source image is found again: some tile cell of
    the tileset is the same (under [tile_is_same]) as that grid cell, and
    no two tile cells of the tileset are the same. *)
Theorem main_tileset_covers_image (im : Image) (tile_w tile_h : Z) :
  0 < tile_w → 0 < tile_h →
  ∃ tiles tileset,
    create_tile_list im tile_w tile_h = Ok tiles ∧
    main im (Some tile_w) (Some tile_h) = Ok tileset ∧
    (∀ row col,
       0 ≤ row < height im / tile_h → 0 ≤ col < width im / tile_w →
       ∃ i : nat,
         (i < length tiles)%nat ∧
         tile_is_same
           (crop tileset (tileset_cell tile_w tile_h (Z.of_nat i)))
           (crop im (col * tile_w, row * tile_h,
                     col * tile_w + tile_w, row * tile_h + tile_h))
         = Ok true) ∧
    (∀ i j : nat,
       (i < j < length tiles)%nat →
       tile_is_same
         (crop tileset (tileset_cell tile_w tile_h (Z.of_nat i)))
         (crop tileset (tileset_cell tile_w tile_h (Z.of_nat j)))
       = Ok false).
Proof.
  intros Hw Hh.
  pose proof (first_seen_size im tile_w tile_h Hw Hh) as Hsize.
  destruct (save_to_tileset_Ok (first_seen (grid_tiles im tile_w tile_h))
              tile_w tile_h) as (blank & _ & Hblank & _ & Hrun); [lia..|].
  eexists _, _. split; [apply create_tile_list_pure; lia|].
  split; [by rewrite main_unfold, create_tile_list_pure by lia|].
  split.
  - intros row col Hrow Hcol.
    destruct (foldl_keep_represented (grid_tiles im tile_w tile_h) []
                (crop im (cell_box tile_w tile_h row col)))
      as (k & Hk & Hsame).
    { apply elem_of_grid_tiles. by exists row, col. }
    fold (first_seen (grid_tiles im tile_w tile_h)) in Hk.
    apply list_elem_of_lookup in Hk as [i Hi].
    exists i. split; [by eapply lookup_lt_Some|].
    apply tile_is_same_true.
    eapply tiles_match_trans;
      [by eapply same_image_match, crop_tileset_cell|].
    rewrite is_same_eqb in Hsame. by apply tile_eqb_match.
  - intros i j Hij.
    destruct (lookup_lt_is_Some_2 (first_seen (grid_tiles im tile_w tile_h)) i)
      as [a Ha]; [lia|].
    destruct (lookup_lt_is_Some_2 (first_seen (grid_tiles im tile_w tile_h)) j)
      as [b Hb]; [lia|].
    apply tile_is_same_false. intros Hm.
    pose proof (first_seen_distinct _ i j a b (proj1 Hij) Ha Hb) as Hd.
    rewrite is_same_eqb in Hd.
    assert (tile_eqb a b = true); [|congruence].
    apply tile_eqb_match.
    eapply tiles_match_trans;
      [by eapply tiles_match_sym, same_image_match, crop_tileset_cell|].
    eapply tiles_match_trans; [done|].
    by eapply same_image_match, crop_tileset_cell.
Qed.

Lemma main_tileset_covers_image_witness :
  ∃ tiles tileset,
    create_tile_list Samples.gradient 8 8 = Ok tiles ∧
    main Samples.gradient (Some 8) (Some 8) = Ok tileset ∧
    (∀ row col,
       0 ≤ row < height Samples.gradient / 8 →
       0 ≤ col < width Samples.gradient / 8 →
       ∃ i : nat,
         (i < length tiles)%nat ∧
         tile_is_same
           (crop tileset (tileset_cell 8 8 (Z.of_nat i)))
           (crop Samples.gradient
              (col * 8, row * 8, col * 8 + 8, row * 8 + 8))
         = Ok true) ∧
    (∀ i j : nat,
       (i < j < length tiles)%nat →
       tile_is_same
         (crop tileset (tileset_cell 8 8 (Z.of_nat i)))
         (crop tileset (tileset_cell 8 8 (Z.of_nat j)))
       = Ok false).
Proof. apply (main_tileset_covers_image Samples.gradient 8 8); lia. Defined.

(** X9.  A one-row image of fewer than 16 tiles, no two of them the same,
    comes back unchanged: the tileset [main] produces has the size of the
    image and the same pixel everywhere. *)
Theorem main_round_trip (im : Image) (tile_w tile_h n : Z) :
  0 < tile_w → 0 < tile_h → 1 ≤ n < 16 →
  size im = (n * tile_w, tile_h) →
  (∀ (i j : nat) a b,
     (i < j)%nat →
     grid_tiles im tile_w tile_h !! i = Some a →
     grid_tiles im tile_w tile_h !! j = Some b →
     tile_is_same a b = Ok false) →
  ∃ tileset,
    main im (Some tile_w) (Some tile_h) = Ok tileset ∧
    size tileset = size im ∧
    ∀ x y, getpixel tileset (x, y) = getpixel im (x, y).
Proof.
  intros Hw Hh Hn Hsize Hdist. pose proof Hsize as [= Hiw Hih].
  assert (Hcols : width im / tile_w = n)
    by (rewrite Hiw; apply Z.div_mul; lia).
  assert (Hrows : height im / tile_h = 1)
    by (rewrite Hih; apply Z.div_same; lia).
  assert (Hkeep : first_seen (grid_tiles im tile_w tile_h)
                  = grid_tiles im tile_w tile_h).
  { apply first_seen_keeps_distinct. intros i j a b Hij Ha Hb.
    apply is_same_false. by apply (Hdist i j). }
  assert (Hlen : len (grid_tiles im tile_w tile_h) = n).
  { unfold len, grid_tiles.
    rewrite length_map, length_grid_boxes, Hcols, Hrows. lia. }
  pose proof (first_seen_size im tile_w tile_h Hw Hh) as Htiles.
  rewrite Hkeep in Htiles.
  destruct (save_to_tileset_Ok (grid_tiles im tile_w tile_h) tile_w tile_h)
    as (blank & _ & Hblank & _ & Hrun); [lia..|].
  rewrite Hlen, Z.min_l, Z.div_small in Hblank by lia.
  destruct (im_data_paste_tiles _ tile_w tile_h blank Htiles) as [Hin _].
  pose proof (size_paste_tiles (enumerate (grid_tiles im tile_w tile_h))
                tile_w tile_h blank) as Hsz.
  rewrite Hblank in Hsz.
  assert (Hsame : size (paste_tiles (enumerate (grid_tiles im tile_w tile_h))
                          tile_w tile_h blank) = size im).
  { rewrite Hsz, Hsize. f_equal; lia. }
  eexists. split.
  { by rewrite main_unfold, create_tile_list_pure, Hkeep by lia. }
  split; [done|]. intros x y.
  destruct (decide (inside im x y)) as [Hxy|Hxy]; cycle 1.
  { rewrite !getpixel_outside; [done..|].
    intros Hc. apply Hxy. by eapply inside_same_size. }
  rewrite (getpixel_inside im) by done.
  rewrite getpixel_inside by (eapply inside_same_size; [|done]; done).
  f_equal.
  destruct Hxy as [Hx Hy]. rewrite Hiw in Hx. rewrite Hih in Hy.
  pose proof (Z.div_mod x tile_w ltac:(lia)) as Hdm.
  pose proof (Z.mod_pos_bound x tile_w Hw) as Hdx.
  assert (Hi : 0 ≤ x / tile_w < n).
  { split; [apply Z.div_pos; lia|apply Z.div_lt_upper_bound; lia]. }
  assert (Hlook : grid_tiles im tile_w tile_h !! Z.to_nat (x / tile_w)
                  = Some (crop im (cell_box tile_w tile_h 0 (x / tile_w)))).
  { unfold grid_tiles. rewrite list_lookup_fmap.
    pose proof (lookup_grid_boxes (width im) (height im) tile_w tile_h
                  0 (x / tile_w)) as Hl.
    rewrite Z.mul_0_l, Z.add_0_l in Hl. rewrite Hl by lia. done. }
  specialize (Hin _ _ (x `mod` tile_w) y Hlook Hdx Hy).
  rewrite Z2Nat.id, Z.mod_small, (Z.div_small (x / tile_w)) in Hin by lia.
  replace (x / tile_w * tile_w + x `mod` tile_w) with x in Hin by lia.
  replace (0 * tile_h + y) with y in Hin by lia.
  rewrite Hin. cbn.
  replace (x / tile_w * tile_w + x `mod` tile_w) with x by lia.
  rewrite decide_True; [done|]. unfold inside. lia.
Qed.

Lemma main_round_trip_witness :
  ∃ tileset,
    main Samples.red_blue (Some 8) (Some 8) = Ok tileset ∧
    size tileset = size Samples.red_blue ∧
    ∀ x y, getpixel tileset (x, y) = getpixel Samples.red_blue (x, y).
Proof.
  apply (main_round_trip Samples.red_blue 8 8 2); [lia|lia|lia|done|].
  intros i j a b Hij Ha Hb.
  assert (i = 0 ∧ j = 1)%nat as [-> ->].
  { apply lookup_lt_Some in Hb. change (j < 2)%nat in Hb. lia. }
  injection Ha as <-. injection Hb as <-. reflexivity.
Defined.

(** ** Cutting the tileset into tiles again *)

Lemma size_blank_tile tile_w tile_h :
  0 ≤ tile_w → 0 ≤ tile_h → size (blank_tile tile_w tile_h) = (tile_w, tile_h).
Proof. intros. unfold size, width, height. cbn. f_equal; lia. Qed.

(** A cell of the tileset beyond the last tile looks like a blank tile. *)
Lemma crop_tileset_blank_cell tile_list tile_w tile_h blank k :
  0 ≤ tile_w → 0 ≤ tile_h →
  Forall (fun t => size t = (tile_w, tile_h)) tile_list →
  (∀ x y, im_data blank x y = transparent) →
  len tile_list ≤ k →
  same_image
    (crop (paste_tiles (enumerate tile_list) tile_w tile_h blank)
          (tileset_cell tile_w tile_h k))
    (blank_tile tile_w tile_h).
Proof.
  intros Hw Hh Hsize Hzero Hk.
  destruct (im_data_paste_tiles tile_list tile_w tile_h blank Hsize)
    as [_ Hout].
  assert (Hcrop : size (crop (paste_tiles (enumerate tile_list)
                                tile_w tile_h blank)
                          (tileset_cell tile_w tile_h k))
                  = (tile_w, tile_h)).
  { unfold size, width, height, tileset_cell. cbn. f_equal; lia. }
  pose proof (size_blank_tile tile_w tile_h Hw Hh) as Hb.
  split; [congruence|].
  intros x y.
  destruct (decide (inside (blank_tile tile_w tile_h) x y)) as [Hxy|Hxy].
  - rewrite (getpixel_inside (blank_tile _ _)) by done.
    rewrite getpixel_inside
      by (eapply inside_same_size; [|done]; congruence).
    f_equal. unfold tileset_cell. cbn.
    destruct (decide (inside _ _ _)) as [Hin|Hin]; [|done].
    rewrite Hout; [apply Hzero|].
    intros i Hi Hc.
    assert (0 ≤ x < tile_w ∧ 0 ≤ y < tile_h) as [Hx Hy].
    { injection Hb as Hbw Hbh. unfold inside in Hxy. lia. }
    pose proof (in_cell_offset tile_w tile_h k x y Hx Hy) as Hck.
    pose proof (in_cell_inj _ _ _ _ _ _ Hc Hck). lia.
  - rewrite (getpixel_outside (blank_tile _ _)) by done.
    rewrite getpixel_outside; [done|].
    intros Hc. apply Hxy. eapply inside_same_size; [|done]. congruence.
Qed.

(** The grid of the tileset, row by row, is the tile list followed by the
    blank cells that fill the last row. *)
Lemma grid_tiles_tileset tile_list tile_w tile_h blank :
  0 < tile_w → 0 < tile_h →
  Forall (fun t => size t = (tile_w, tile_h)) tile_list →
  size blank = (tile_w * Z.min (len tile_list) 16,
                tile_h * (len tile_list / 16 + 1)) →
  (∀ x y, im_data blank x y = transparent) →
  Forall2 same_image
    (grid_tiles (paste_tiles (enumerate tile_list) tile_w tile_h blank)
       tile_w tile_h)
    (tile_list
     ++ replicate
          (Z.to_nat ((len tile_list / 16 + 1) * Z.min (len tile_list) 16
                     - len tile_list))
          (blank_tile tile_w tile_h)).
Proof.
  intros Hw Hh Hsize Hblank Hzero.
  pose proof (size_paste_tiles (enumerate tile_list) tile_w tile_h blank)
    as Hsz.
  rewrite Hblank in Hsz. injection Hsz as Hsw Hsh.
  set (T := paste_tiles (enumerate tile_list) tile_w tile_h blank) in *.
  set (N := len tile_list) in *.
  assert (HN : 0 ≤ N) by (unfold N, len; lia).
  assert (Hcols : width T / tile_w = Z.min N 16)
    by (rewrite Hsw, Z.mul_comm; apply Z.div_mul; lia).
  assert (Hrows : height T / tile_h = N / 16 + 1)
    by (rewrite Hsh, Z.mul_comm; apply Z.div_mul; lia).
  pose proof (Z.div_mod N 16 ltac:(done)) as HdmN.
  pose proof (Z.mod_pos_bound N 16 eq_refl) as HmodN.
  assert (Hfill : N ≤ (N / 16 + 1) * Z.min N 16).
  { destruct (decide (N < 16)).
    - rewrite Z.div_small by lia. lia.
    - rewrite Z.min_r by lia. lia. }
  assert (0 ≤ N / 16) by (apply Z.div_pos; lia).
  apply Forall2_same_length_lookup_2.
  { unfold grid_tiles.
    rewrite length_map, length_grid_boxes, Hcols, Hrows.
    rewrite length_app, length_replicate. fold N.
    unfold N, len in *. nia. }
  intros k x y Hx Hy.
  assert (Hk : Z.of_nat k < (N / 16 + 1) * Z.min N 16).
  { apply lookup_lt_Some in Hx. unfold grid_tiles in Hx.
    rewrite length_map, length_grid_boxes, Hcols, Hrows in Hx. nia. }
  assert (Hcpos : 0 < Z.min N 16) by nia.
  set (r := Z.of_nat k / Z.min N 16).
  set (c := Z.of_nat k `mod` Z.min N 16).
  pose proof (Z.div_mod (Z.of_nat k) (Z.min N 16) ltac:(lia)) as Hdm.
  pose proof (Z.mod_pos_bound (Z.of_nat k) (Z.min N 16) Hcpos) as Hc.
  fold r c in Hdm, Hc.
  assert (Hr : 0 ≤ r < N / 16 + 1).
  { split; [apply Z.div_pos; lia|apply Z.div_lt_upper_bound; lia]. }
  assert (Hcell : cell_box tile_w tile_h r c
                  = tileset_cell tile_w tile_h (Z.of_nat k)).
  { assert (c = Z.of_nat k `mod` 16 ∧ r = Z.of_nat k / 16) as [Hc16 Hr16];
      [|unfold cell_box, tileset_cell; by rewrite Hc16, Hr16].
    destruct (decide (N < 16)) as [Hsmall|Hbig].
    - rewrite Z.div_small in Hr by lia.
      assert (r = 0) as Hr0 by lia.
      rewrite Hr0, Z.min_l in * by lia.
      rewrite Z.mod_small, Z.div_small by lia. lia.
    - unfold c, r. by rewrite Z.min_r by lia. }
  unfold grid_tiles in Hx. rewrite list_lookup_fmap in Hx.
  pose proof (lookup_grid_boxes (width T) (height T) tile_w tile_h r c) as Hl.
  rewrite Hcols, Hrows in Hl.
  replace (Z.to_nat (r * Z.min N 16 + c)) with k in Hl by lia.
  rewrite Hl in Hx by done.
  assert (x = crop T (tileset_cell tile_w tile_h (Z.of_nat k))) as ->
    by (rewrite <- Hcell; by injection Hx).
  destruct (decide (k < length tile_list)%nat) as [Hlt|Hge].
  - rewrite lookup_app_l in Hy by done.
    by apply crop_tileset_cell.
  - rewrite lookup_app_r in Hy by lia.
    apply lookup_replicate in Hy as [-> _].
    apply crop_tileset_blank_cell; try done; try lia.
    unfold len. lia.
Qed.

Lemma foldl_keep_replicate kept m b :
  foldl keep_unmatched kept (replicate m b) = kept
  ∨ foldl keep_unmatched kept (replicate m b) = kept ++ [b].
Proof.
  destruct m as [|m]; [by left|]. cbn.
  unfold keep_unmatched at 2 4.
  destruct (existsb (fun k => is_same k b) kept) eqn:E.
  - left. apply foldl_keep_all_matched.
    intros t [-> _]%elem_of_replicate. by apply existsb_is_same.
  - right. apply foldl_keep_all_matched.
    intros t [-> _]%elem_of_replicate. exists b. split.
    + apply elem_of_app. right. by apply list_elem_of_singleton.
    + apply is_same_refl.
Qed.

(** X10.  Packing and cutting again: for a list of [tile_w] x [tile_h]
    tiles, no two of them the same, [create_tile_list] applied to the
    tileset that [save_to_tileset] produces returns tiles that look the
    same as the list, in the same order, followed by at most one blank
    tile (none when there are fewer than 16 tiles). *)
Theorem create_tile_list_of_tileset
    (tile_list : list Image) (tile_w tile_h : Z) :
  0 < tile_w → 0 < tile_h →
  Forall (fun t => size t = (tile_w, tile_h)) tile_list →
  (∀ (i j : nat) a b,
     (i < j)%nat → tile_list !! i = Some a → tile_list !! j = Some b →
     tile_is_same a b = Ok false) →
  ∃ tileset again extra,
    save_to_tileset tile_list tile_w tile_h = Ok tileset ∧
    create_tile_list tileset tile_w tile_h = Ok (again ++ extra) ∧
    Forall2 same_image again tile_list ∧
    (len tile_list < 16 → extra = []) ∧
    (extra = []
     ∨ ∃ b, extra = [b] ∧ same_image b (blank_tile tile_w tile_h)).
Proof.
  intros Hw Hh Hsize Hdist.
  destruct (save_to_tileset_Ok tile_list tile_w tile_h)
    as (blank & _ & Hblank & Hzero & Hrun); [lia..|].
  pose proof (grid_tiles_tileset tile_list tile_w tile_h blank
                Hw Hh Hsize Hblank Hzero) as Hgrid.
  set (T := paste_tiles (enumerate tile_list) tile_w tile_h blank) in *.
  set (m := Z.to_nat _) in Hgrid.
  assert (Hkeep : first_seen tile_list = tile_list).
  { apply first_seen_keeps_distinct. intros i j a b Hij Ha Hb.
    apply is_same_false. by apply (Hdist i j). }
  assert (Hfs : Forall2 same_image
                  (first_seen (grid_tiles T tile_w tile_h))
                  (foldl keep_unmatched tile_list
                     (replicate m (blank_tile tile_w tile_h)))).
  { rewrite <- Hkeep at 1. unfold first_seen at 2. rewrite <- foldl_app.
    by apply foldl_keep_same_image. }
  exists T. rewrite create_tile_list_pure by lia.
  destruct (foldl_keep_replicate tile_list m (blank_tile tile_w tile_h))
    as [Hnone|Hone]; [rewrite Hnone in Hfs|rewrite Hone in Hfs].
  - exists (first_seen (grid_tiles T tile_w tile_h)), [].
    rewrite app_nil_r. split_and!; auto.
  - destruct (decide (m = 0%nat)) as [Hm0|Hm].
    { rewrite Hm0 in Hone. cbn in Hone.
      apply (f_equal length) in Hone. rewrite length_app in Hone.
      cbn in Hone. lia. }
    apply Forall2_app_inv_r in Hfs as (again & extra & Hagain & Hextra & ->).
    apply Forall2_cons_inv_r in Hextra as (b & rest & Hb & Hrest & ->).
    apply Forall2_nil_inv_r in Hrest as ->.
    exists again, [b]. split_and!; [done..| |right; by exists b].
    intros Hsmall. exfalso. apply Hm. unfold m.
    rewrite Z.div_small, Z.min_l by (unfold len in *; lia). lia.
Qed.

Lemma create_tile_list_of_tileset_witness :
  ∃ tileset again extra,
    save_to_tileset Samples.tiles17 8 8 = Ok tileset ∧
    create_tile_list tileset 8 8 = Ok (again ++ extra) ∧
    Forall2 same_image again Samples.tiles17 ∧
    (len Samples.tiles17 < 16 → extra = []) ∧
    (extra = [] ∨ ∃ b, extra = [b] ∧ same_image b (blank_tile 8 8)).
Proof.
  apply (create_tile_list_of_tileset Samples.tiles17 8 8); [lia|lia|..].
  - apply (bool_decide_unpack _). vm_compute. exact I.
  - intros i j a b Hij Ha Hb.
    assert (Hj : (j < 17)%nat) by (by apply lookup_lt_Some in Hb).
    do 17 (destruct i as [|i]; [do 17 (destruct j as [|j]; [try lia;
      injection Ha as <-; injection Hb as <-; reflexivity|]); lia|]).
    lia.
Defined.

(** X11.  How [main] ends: a tile height of 0, or a tile width of 0 on an
    image with a grid row, raises [ZeroDivisionError] and no tileset is
    made; a negative tile height gives no tile and then [ValueError] from
    [Image.new]; with positive tile dimensions of which at least one tile
    fits, a tileset of at least one tile is made. *)
Theorem main_outcomes (im : Image) (tile_w tile_h : Z) :
  (tile_h = 0 ∨ (tile_w = 0 ∧ 0 < height im / tile_h) →
   main im (Some tile_w) (Some tile_h) = Raise ZeroDivisionError) ∧
  (tile_h < 0 →
   main im (Some tile_w) (Some tile_h) = Raise ValueError) ∧
  (0 < tile_w ≤ width im → 0 < tile_h ≤ height im →
   ∃ tiles tileset,
     create_tile_list im tile_w tile_h = Ok tiles ∧
     1 ≤ len tiles ∧
     main im (Some tile_w) (Some tile_h) = Ok tileset ∧
     size tileset = (tile_w * Z.min (len tiles) 16,
                     tile_h * (len tiles / 16 + 1))).
Proof.
  rewrite main_unfold. split_and!.
  - intros [->|[-> Hrows]].
    + by rewrite create_tile_list_zero_height.
    + by rewrite create_tile_list_zero_width.
  - intros Hneg.
    rewrite create_tile_list_no_rows; [|lia|].
    + change (save_to_tileset [] tile_w tile_h = Raise ValueError).
      unfold save_to_tileset. rewrite tileset_size_formula.
      unfold PIL.new. change (len (@nil Image)) with 0.
      rewrite decide_False; [done|].
      rewrite Z.div_0_l by done. lia.
    + rewrite <- Z.div_opp_opp by lia.
      apply Z.div_le_upper_bound; unfold height; lia.
  - intros Hw Hh.
    assert (Hrows : 0 < height im / tile_h) by (apply Z.div_str_pos; lia).
    assert (Hcols : 0 < width im / tile_w) by (apply Z.div_str_pos; lia).
    destruct (grid_tiles_head im tile_w tile_h Hrows Hcols) as [scan Hscan].
    destruct (first_seen_cons (crop im (0, 0, tile_w, tile_h)) scan)
      as [rest Hrest].
    rewrite create_tile_list_pure, Hscan, Hrest by lia.
    destruct (save_to_tileset_Ok (crop im (0, 0, tile_w, tile_h) :: rest)
                tile_w tile_h) as (blank & _ & Hblank & _ & Hrun); [lia..|].
    eexists _, _. split; [done|]. split; [unfold len; cbn; lia|].
    split; [exact Hrun|]. by rewrite size_paste_tiles.
Qed.

Lemma main_outcomes_witness :
  main Samples.gradient (Some 8) (Some 0) = Raise ZeroDivisionError ∧
  main Samples.gradient (Some 8) (Some (-8)) = Raise ValueError ∧
  ∃ tiles tileset,
    create_tile_list Samples.gradient 8 8 = Ok tiles ∧
    1 ≤ len tiles ∧
    main Samples.gradient (Some 8) (Some 8) = Ok tileset ∧
    size tileset = (8 * Z.min (len tiles) 16, 8 * (len tiles / 16 + 1)).
Proof.
  split; [|split].
  - apply (main_outcomes Samples.gradient 8 0). by left.
  - apply (main_outcomes Samples.gradient 8 (-8)). lia.
  - apply (main_outcomes Samples.gradient 8 8);
      unfold width, height; cbn; lia.
Defined.
